(** * The banking ledger of [banking-services/database.js]

    A shallow embedding of the in-memory ledger: the customer table, the
    transaction log, the session list and the analytics counters, together
    with the customer, transaction and analytics operations that read and
    mutate them.

    Conventions of the embedding.
    - The module-level object [db] is the state; every operation of the
      source that touches it is a computation in the state monad [M].
    - JavaScript numbers that hold money or counters are integers ([Z]);
      fractions are outside the model.  The ledger is given over exact
      integers, which is what the source computes while every balance is an
      integer of magnitude at most [2^53].  The module [Binary64] gives the
      balance arithmetic with the rounding of doubles written out; the two
      ledgers agree while the balances written are safe integers
      ([processTransfer_exact], [run_exact]), and the properties that need
      exact sums are stated on [Binary64] under that condition.
    - An object stored in [db.transactions] is referred to by its position
      in the array ([Ref]): the object returned by [createTransaction] and
      the one later changed by [updateTransactionStatus] are the same cell
      of the log, as in the source.
    - [uuidv4()] and [new Date()] are inputs of the environment ([Env]),
      handed to the operation that consumes them.  The engine finds the
      record it has just pushed by its id, so the statements that read the
      status of that record assume what a UUID provides: the id is not in
      the log yet ([fresh]).
    - A timestamp is the instant in milliseconds; the source stores its
      ISO-8601 rendering, which no operation reads. *)

From Stdlib Require Import Ascii.
From stdpp Require Import base option numbers list strings.

Local Open Scope Z_scope.

(** ** Data model *)

Module Customer.
Record t := mk {
  id : string;
  name : string;
  email : string;
  accountNumber : string;
  balance : Z
}.
End Customer.

Module Transaction.
Record t := mk {
  id : string;
  timestamp : Z;
  status : string;
  accountNumber : string;
  destinationAccount : option string;
  type : string;
  amount : Z;
  reason : option string
}.

Definition set_status (s : string) (x : t) : t :=
  mk (id x) (timestamp x) s (accountNumber x) (destinationAccount x)
     (type x) (amount x) (reason x).
End Transaction.

(** The object literal handed to [createTransaction]: the fields the three
    engine operations pass, [status] and [reason] being optional. *)
Module Fields.
Record t := mk {
  accountNumber : string;
  destinationAccount : option string;
  type : string;
  amount : Z;
  status : option string;
  reason : option string
}.
End Fields.

Record Analytics := mkAnalytics {
  activeSessions : Z;
  totalTransactions : Z;
  depositTotal : Z;
  withdrawalTotal : Z;
  transferTotal : Z
}.

Record Db := mkDb {
  customers : list Customer.t;
  transactions : list Transaction.t;
  sessions : list string;
  analytics : Analytics
}.

(** What the environment supplies to one call of [createTransaction]. *)
Record Env := mkEnv {
  uuidv4 : string;
  now : Z
}.

(** A reference to a transaction object: its index in [db.transactions]. *)
Definition Ref := nat.

Module Result.
Record t := mk {
  success : bool;
  transaction : Ref;
  reason : option string
}.
End Result.

Module Summary.
Record t := mk {
  totalCount : Z;
  completedCount : Z;
  pendingCount : Z;
  failedCount : Z;
  depositTotal : Z;
  withdrawalTotal : Z;
  transferTotal : Z
}.
End Summary.

#[global] Instance Transaction_inhabited : Inhabited Transaction.t :=
  populate (Transaction.mk "" 0 "" "" None "" 0 None).

(** ** The state monad of the module *)

Definition M (A : Type) : Type := Db → A * Db.

#[global] Instance M_ret : MRet M := λ A (a : A) db, (a, db).
#[global] Instance M_bind : MBind M :=
  λ A B (k : A → M B) (m : M A) db, let '(a, db') := m db in k a db'.

Definition gets {A} (f : Db → A) : M A := λ db, (f db, db).

Definition set_customers (cs : list Customer.t) (db : Db) : Db :=
  mkDb cs (transactions db) (sessions db) (analytics db).
Definition set_transactions (ts : list Transaction.t) (db : Db) : Db :=
  mkDb (customers db) ts (sessions db) (analytics db).
Definition set_sessions (ss : list string) (db : Db) : Db :=
  mkDb (customers db) (transactions db) ss (analytics db).
Definition set_analytics (a : Analytics) (db : Db) : Db :=
  mkDb (customers db) (transactions db) (sessions db) a.

(** ** The seeded state

    [startup] is [Date.now()] at module load. *)
Definition seed (startup : Z) : Db :=
  {| customers :=
       [ Customer.mk "1" "John Doe" "john@example.com" "10001" 5000;
         Customer.mk "2" "Jane Smith" "jane@example.com" "10002" 7500;
         Customer.mk "3" "Robert Johnson" "robert@example.com" "10003" 12000 ];
     transactions :=
       [ Transaction.mk "t1" (startup - 86400000) "completed" "10001" None
           "deposit" 1000 None;
         Transaction.mk "t2" (startup - 43200000) "completed" "10002" None
           "withdrawal" 500 None;
         Transaction.mk "t3" (startup - 21600000) "completed" "10001"
           (Some "10003") "transfer" 750 None ];
     sessions := [];
     analytics := mkAnalytics 0 3 1000 500 750 |}.

(** ** Customer operations *)

Definition has_account (accountNumber : string) (c : Customer.t) : Prop :=
  Customer.accountNumber c = accountNumber.

#[global] Instance has_account_dec n c : Decision (has_account n c).
Proof. unfold has_account. apply _. Defined.

Definition getCustomers (db : Db) : list Customer.t := customers db.

Definition getCustomerById (id : string) (db : Db) : option Customer.t :=
  snd <$> list_find (λ c, Customer.id c = id) (customers db).

Definition getCustomerByAccountNumber (accountNumber : string) (db : Db)
  : option Customer.t :=
  snd <$> list_find (has_account accountNumber) (customers db).

Definition getCustomerBalance (accountNumber : string) (db : Db) : option Z :=
  match list_find (has_account accountNumber) (customers db) with
  | Some (_, customer) => Some (Customer.balance customer)
  | None => None
  end.

(** [customer.balance += amount] over exact integers; with the rounding of
    doubles it is [Binary64.add_balance], and the two agree while the sum is
    of magnitude at most [2^53]. *)
Definition add_balance (amount : Z) (c : Customer.t) : Customer.t :=
  Customer.mk (Customer.id c) (Customer.name c) (Customer.email c)
    (Customer.accountNumber c) (Customer.balance c + amount).

Definition updateCustomerBalance (accountNumber : string) (amount : Z) : M bool :=
  λ db,
    match list_find (has_account accountNumber) (customers db) with
    | Some (i, _) =>
        (true, set_customers (alter (add_balance amount) i (customers db)) db)
    | None => (false, db)
    end.

(** ** Transaction operations *)

Definition has_id (id : string) (x : Transaction.t) : Prop :=
  Transaction.id x = id.

#[global] Instance has_id_dec i x : Decision (has_id i x).
Proof. unfold has_id. apply _. Defined.

Definition getTransactions (db : Db) : list Transaction.t := transactions db.

Definition getTransactionById (id : string) (db : Db) : option Transaction.t :=
  snd <$> list_find (has_id id) (transactions db).

Definition getTransactionsByAccountNumber (accountNumber : string) (db : Db)
  : list Transaction.t :=
  filter (λ x, Transaction.accountNumber x = accountNumber) (transactions db).

(** [{ id: uuidv4(), timestamp: ..., status: 'pending', ...transaction }]:
    the spread overrides [status] when the caller gave one. *)
Definition newTransaction (env : Env) (transaction : Fields.t) : Transaction.t :=
  {| Transaction.id := uuidv4 env;
     Transaction.timestamp := now env;
     Transaction.status := default "pending" (Fields.status transaction);
     Transaction.accountNumber := Fields.accountNumber transaction;
     Transaction.destinationAccount := Fields.destinationAccount transaction;
     Transaction.type := Fields.type transaction;
     Transaction.amount := Fields.amount transaction;
     Transaction.reason := Fields.reason transaction |}.

Definition bump_analytics (transaction : Fields.t) (a : Analytics) : Analytics :=
  let a := mkAnalytics (activeSessions a) (totalTransactions a + 1)
             (depositTotal a) (withdrawalTotal a) (transferTotal a) in
  if decide (Fields.type transaction = "deposit") then
    mkAnalytics (activeSessions a) (totalTransactions a)
      (depositTotal a + Fields.amount transaction) (withdrawalTotal a)
      (transferTotal a)
  else if decide (Fields.type transaction = "withdrawal") then
    mkAnalytics (activeSessions a) (totalTransactions a)
      (depositTotal a) (withdrawalTotal a + Fields.amount transaction)
      (transferTotal a)
  else if decide (Fields.type transaction = "transfer") then
    mkAnalytics (activeSessions a) (totalTransactions a)
      (depositTotal a) (withdrawalTotal a)
      (transferTotal a + Fields.amount transaction)
  else a.

Definition createTransaction (env : Env) (transaction : Fields.t) : M Ref :=
  λ db,
    let ref := length (transactions db) in
    let db := set_transactions (transactions db ++ [newTransaction env transaction]) db in
    let db := set_analytics (bump_analytics transaction (analytics db)) db in
    (ref, db).

Definition updateTransactionStatus (id : string) (status : string)
  : M (option Ref) :=
  λ db,
    match list_find (has_id id) (transactions db) with
    | Some (i, _) =>
        (Some i,
         set_transactions
           (alter (Transaction.set_status status) i (transactions db)) db)
    | None => (None, db)
    end.

(** [transaction.id] read through the reference. *)
Definition id_of (transaction : Ref) (db : Db) : string :=
  Transaction.id (transactions db !!! transaction).

Definition processDeposit (env : Env) (accountNumber : string) (amount : Z)
  : M Result.t :=
  transaction ← createTransaction env
    (Fields.mk accountNumber None "deposit" amount None None);
  success ← updateCustomerBalance accountNumber amount;
  if (success : bool) then
    id ← gets (id_of transaction);
    _ ← updateTransactionStatus id "completed";
    mret (Result.mk true transaction None)
  else
    id ← gets (id_of transaction);
    _ ← updateTransactionStatus id "failed";
    mret (Result.mk false transaction None).

Definition insufficient (balance : option Z) (amount : Z) : bool :=
  match balance with
  | None => true
  | Some b => bool_decide (b < amount)
  end.

Definition processWithdrawal (env : Env) (accountNumber : string) (amount : Z)
  : M Result.t :=
  balance ← gets (getCustomerBalance accountNumber);
  if insufficient balance amount then
    transaction ← createTransaction env
      (Fields.mk accountNumber None "withdrawal" amount
         (Some "failed") (Some "Insufficient funds"));
    mret (Result.mk false transaction (Some "Insufficient funds"))
  else
    transaction ← createTransaction env
      (Fields.mk accountNumber None "withdrawal" amount None None);
    success ← updateCustomerBalance accountNumber (- amount);
    if (success : bool) then
      id ← gets (id_of transaction);
      _ ← updateTransactionStatus id "completed";
      mret (Result.mk true transaction None)
    else
      id ← gets (id_of transaction);
      _ ← updateTransactionStatus id "failed";
      mret (Result.mk false transaction None).

Definition processTransfer (env : Env) (sourceAccount destinationAccount : string)
    (amount : Z) : M Result.t :=
  sourceBalance ← gets (getCustomerBalance sourceAccount);
  if insufficient sourceBalance amount then
    transaction ← createTransaction env
      (Fields.mk sourceAccount (Some destinationAccount) "transfer" amount
         (Some "failed") (Some "Insufficient funds"));
    mret (Result.mk false transaction (Some "Insufficient funds"))
  else
    destinationCustomer ← gets (getCustomerByAccountNumber destinationAccount);
    if destinationCustomer is None then
      transaction ← createTransaction env
        (Fields.mk sourceAccount (Some destinationAccount) "transfer" amount
           (Some "failed") (Some "Destination account not found"));
      mret (Result.mk false transaction (Some "Destination account not found"))
    else
      transaction ← createTransaction env
        (Fields.mk sourceAccount (Some destinationAccount) "transfer" amount
           None None);
      sourceUpdate ← updateCustomerBalance sourceAccount (- amount);
      destUpdate ← updateCustomerBalance destinationAccount amount;
      if (sourceUpdate && destUpdate)%bool then
        id ← gets (id_of transaction);
        _ ← updateTransactionStatus id "completed";
        mret (Result.mk true transaction None)
      else
        _ ← (if (sourceUpdate : bool)
             then updateCustomerBalance sourceAccount amount
             else mret false);
        id ← gets (id_of transaction);
        _ ← updateTransactionStatus id "failed";
        mret (Result.mk false transaction None).

(** ** Analytics operations *)

Definition getAnalytics (db : Db) : Analytics := analytics db.

Definition count_status (s : string) (db : Db) : Z :=
  Z.of_nat (length (filter (λ x, Transaction.status x = s) (transactions db))).

Definition getTransactionSummary (db : Db) : Summary.t :=
  {| Summary.totalCount := Z.of_nat (length (transactions db));
     Summary.completedCount := count_status "completed" db;
     Summary.pendingCount := count_status "pending" db;
     Summary.failedCount := count_status "failed" db;
     Summary.depositTotal := depositTotal (analytics db);
     Summary.withdrawalTotal := withdrawalTotal (analytics db);
     Summary.transferTotal := transferTotal (analytics db) |}.

(** [Array.prototype.indexOf]: the first position of [x], or [-1]. *)
Fixpoint indexOf (x : string) (l : list string) : Z :=
  match l with
  | [] => -1
  | y :: l' =>
      if decide (y = x) then 0
      else let i := indexOf x l' in if decide (i = -1) then -1 else i + 1
  end.

Definition set_activeSessions (n : Z) (a : Analytics) : Analytics :=
  mkAnalytics n (totalTransactions a) (depositTotal a) (withdrawalTotal a)
    (transferTotal a).

Definition sync_activeSessions (db : Db) : Db :=
  set_analytics
    (set_activeSessions (Z.of_nat (length (sessions db))) (analytics db)) db.

Definition trackSession (sessionId : string) (active : bool) : M Z :=
  λ db,
    if active then
      let db := set_sessions (sessions db ++ [sessionId]) db in
      let db := sync_activeSessions db in
      (activeSessions (analytics db), db)
    else
      let index := indexOf sessionId (sessions db) in
      let db :=
        if decide (index ≠ -1)
        then set_sessions (delete (Z.to_nat index) (sessions db)) db
        else db in
      let db := sync_activeSessions db in
      (activeSessions (analytics db), db).

(** ** Sequences of ledger operations *)

Inductive Op :=
| Deposit (env : Env) (accountNumber : string) (amount : Z)
| Withdrawal (env : Env) (accountNumber : string) (amount : Z)
| Transfer (env : Env) (sourceAccount destinationAccount : string) (amount : Z)
| TrackSession (sessionId : string) (active : bool).

Definition step (db : Db) (o : Op) : Db :=
  match o with
  | Deposit env a x => (processDeposit env a x db).2
  | Withdrawal env a x => (processWithdrawal env a x db).2
  | Transfer env s d x => (processTransfer env s d x db).2
  | TrackSession i b => (trackSession i b db).2
  end.

Definition run (ops : list Op) (db : Db) : Db := foldl step db ops.

(** ** Quantities the properties speak about *)

Definition sum_balances (cs : list Customer.t) : Z :=
  foldr (λ c s, Customer.balance c + s) 0 cs.

Definition total_balance (db : Db) : Z := sum_balances (customers db).




(** The id handed out by the environment is not yet in the log. *)
Definition fresh (env : Env) (db : Db) : Prop :=
  Forall (λ x, ¬ has_id (uuidv4 env) x) (transactions db).

#[global] Instance fresh_dec env db : Decision (fresh env db).
Proof. unfold fresh. apply _. Defined.

(** The transaction object behind a reference, as the log holds it now. *)
Definition deref (r : Ref) (db : Db) : option Transaction.t :=
  transactions db !! r.

Definition status_of (r : Ref) (db : Db) : option string :=
  Transaction.status <$> deref r db.

(** The fields [processDeposit] hands to [createTransaction]. *)
Definition deposit_fields (n : string) (x : Z) : Fields.t :=
  Fields.mk n None "deposit" x None None.

(** The record pushed by a call, when [uuidv4] hands out a new id: the
    status is final and the reason is the one returned to the caller. *)
Definition logged (env : Env) (accountNumber : string)
    (destinationAccount : option string) (type : string) (amount : Z)
    (r : Result.t) : Transaction.t :=
  Transaction.mk (uuidv4 env) (now env)
    (if Result.success r then "completed" else "failed")
    accountNumber destinationAccount type amount (Result.reason r).


(** No account whose balance was non-negative ends up with a negative one. *)
Definition no_balance_turns_negative (db db' : Db) : Prop :=
  ∀ n b, getCustomerBalance n db = Some b → 0 ≤ b →
         ∃ b', getCustomerBalance n db' = Some b' ∧ 0 ≤ b'.

(** Reason texts are compared as the specification writes them, in lower
    case; the source capitalises the first letter of each reason. *)
Definition lower_ascii (c : ascii) : ascii :=
  let n := nat_of_ascii c in
  if ((65 <=? n) && (n <=? 90))%nat then ascii_of_nat (n + 32) else c.

Fixpoint lower (s : string) : string :=
  match s with
  | EmptyString => EmptyString
  | String c s' => String (lower_ascii c) (lower s')
  end.

Definition reason_reads (text : string) (reason : option string) : Prop :=
  ∃ s, reason = Some s ∧ lower s = lower text.

(** The account is missing or holds strictly less than [amount]. *)
Definition lacks_funds (accountNumber : string) (amount : Z) (db : Db) : Prop :=
  getCustomerBalance accountNumber db = None ∨
  ∃ b, getCustomerBalance accountNumber db = Some b ∧ b < amount.

(** One record was pushed, the result refers to it, and its status is
    final. *)
Definition appends_one_final (db : Db) (out : Result.t * Db) : Prop :=
  ∃ x, transactions out.2 = transactions db ++ [x] ∧
       deref (Result.transaction out.1) out.2 = Some x ∧
       (Transaction.status x = "completed" ∨ Transaction.status x = "failed") ∧
       Transaction.status x ≠ "pending".

(** The number of distinct ids in the session list. *)
Definition distinct_sessions (db : Db) : Z :=
  Z.of_nat (length (remove_dups (sessions db))).

(** A computation keeps an invariant of the state. *)
Definition preserves {A} (I : Db → Prop) (m : M A) : Prop :=
  ∀ db, I db → I (m db).2.



(** ** Further readings of the state *)

Module ByType.
Record t := mk {
  deposits : list Transaction.t;
  withdrawals : list Transaction.t;
  transfers : list Transaction.t
}.
End ByType.

Definition getTransactionsByType (db : Db) : ByType.t :=
  {| ByType.deposits :=
       filter (λ x, Transaction.type x = "deposit") (transactions db);
     ByType.withdrawals :=
       filter (λ x, Transaction.type x = "withdrawal") (transactions db);
     ByType.transfers :=
       filter (λ x, Transaction.type x = "transfer") (transactions db) |}.

(** What identifies a customer: every field but the balance. *)
Definition identity (c : Customer.t) : string * string * string * string :=
  (Customer.id c, Customer.name c, Customer.email c, Customer.accountNumber c).

(** A log record without its status. *)
Definition unsettled (x : Transaction.t) : Transaction.t :=
  Transaction.set_status "" x.

Definition known_status (x : Transaction.t) : Prop :=
  Transaction.status x = "completed" ∨ Transaction.status x = "pending" ∨
  Transaction.status x = "failed".

Definition known_type (x : Transaction.t) : Prop :=
  Transaction.type x = "deposit" ∨ Transaction.type x = "withdrawal" ∨
  Transaction.type x = "transfer".

(** The object literals the three engine operations build. *)
Definition engine_fields (f : Fields.t) : Prop :=
  (Fields.type f = "deposit" ∨ Fields.type f = "withdrawal" ∨
   Fields.type f = "transfer") ∧
  (Fields.status f = None ∨ Fields.status f = Some "failed").

Definition final_status (s : string) : Prop := s = "completed" ∨ s = "failed".

(** The id an operation of a sequence receives is new to the log it meets. *)
Definition op_fresh (o : Op) (db : Db) : Prop :=
  match o with
  | Deposit env _ _ | Withdrawal env _ _ | Transfer env _ _ _ => fresh env db
  | TrackSession _ _ => True
  end.

Fixpoint well_supplied (ops : list Op) (db : Db) : Prop :=
  match ops with
  | [] => True
  | o :: ops' => op_fresh o db ∧ well_supplied ops' (step db o)
  end.

(** Deposits and transfers of the sequence carry non-negative amounts. *)
Definition credits_nonnegative (ops : list Op) : Prop :=
  Forall (λ o, match o with
               | Deposit _ _ x | Transfer _ _ _ x => 0 ≤ x
               | Withdrawal _ _ _ | TrackSession _ _ => True
               end) ops.

Definition all_nonnegative (db : Db) : Prop :=
  ∀ n b, getCustomerBalance n db = Some b → 0 ≤ b.

(** The engine operations of a sequence, session tracking left out. *)
Definition is_engine_op (o : Op) : bool :=
  match o with TrackSession _ _ => false | _ => true end.

Definition engine_ops (ops : list Op) : nat :=
  length (filter (λ o, is_engine_op o = true) ops).


(** The counter kept by [createTransaction] is the length of the log. *)
Definition counter_matches_log (db : Db) : Prop :=
  totalTransactions (analytics db) = Z.of_nat (length (transactions db)).

(** The record an operation of a sequence leaves in the log when it receives
    a new id: none for session tracking. *)
Definition op_record (db : Db) (o : Op) : list Transaction.t :=
  match o with
  | Deposit env n x =>
      [logged env n None "deposit" x (processDeposit env n x db).1]
  | Withdrawal env n x =>
      [logged env n None "withdrawal" x (processWithdrawal env n x db).1]
  | Transfer env s d x =>
      [logged env s (Some d) "transfer" x (processTransfer env s d x db).1]
  | TrackSession _ _ => []
  end.

(** ** Balances in double precision

    The source keeps a balance in a JavaScript number, and
    [customer.balance += amount] is an addition of doubles: the exact sum
    rounded to the nearest number with a 53-bit significand, ties to the
    even one.  On integers of magnitude up to [2^53] that addition is exact,
    and there the ledger over exact integers above is what the code
    computes.  [Binary64] is the same ledger with the rounding of the
    balance written out, for integer balances and amounts of magnitude below
    [2^1024]. *)

Definition safe (z : Z) : Prop := Z.abs z ≤ 2 ^ 53.

(** The nearest double to an integer, ties to even. *)
Definition round_double (z : Z) : Z :=
  let a := Z.abs z in
  if a <=? 2 ^ 53 then z
  else
    let e := Z.log2 a - 52 in
    let q := a / 2 ^ e in
    let r := a mod 2 ^ e in
    let half := 2 ^ (e - 1) in
    let q' := if r <? half then q
              else if half <? r then q + 1
              else if Z.even q then q else q + 1 in
    Z.sgn z * (q' * 2 ^ e).

(** [a + b] on doubles that hold integers. *)
Definition js_add (a b : Z) : Z := round_double (a + b).

Module Binary64.

Definition add_balance (amount : Z) (c : Customer.t) : Customer.t :=
  Customer.mk (Customer.id c) (Customer.name c) (Customer.email c)
    (Customer.accountNumber c) (js_add (Customer.balance c) amount).

Definition updateCustomerBalance (accountNumber : string) (amount : Z) : M bool :=
  λ db,
    match list_find (has_account accountNumber) (customers db) with
    | Some (i, _) =>
        (true, set_customers (alter (add_balance amount) i (customers db)) db)
    | None => (false, db)
    end.

Definition processDeposit (env : Env) (accountNumber : string) (amount : Z)
  : M Result.t :=
  transaction ← createTransaction env
    (Fields.mk accountNumber None "deposit" amount None None);
  success ← updateCustomerBalance accountNumber amount;
  if (success : bool) then
    id ← gets (id_of transaction);
    _ ← updateTransactionStatus id "completed";
    mret (Result.mk true transaction None)
  else
    id ← gets (id_of transaction);
    _ ← updateTransactionStatus id "failed";
    mret (Result.mk false transaction None).

Definition processWithdrawal (env : Env) (accountNumber : string) (amount : Z)
  : M Result.t :=
  balance ← gets (getCustomerBalance accountNumber);
  if insufficient balance amount then
    transaction ← createTransaction env
      (Fields.mk accountNumber None "withdrawal" amount
         (Some "failed") (Some "Insufficient funds"));
    mret (Result.mk false transaction (Some "Insufficient funds"))
  else
    transaction ← createTransaction env
      (Fields.mk accountNumber None "withdrawal" amount None None);
    success ← updateCustomerBalance accountNumber (- amount);
    if (success : bool) then
      id ← gets (id_of transaction);
      _ ← updateTransactionStatus id "completed";
      mret (Result.mk true transaction None)
    else
      id ← gets (id_of transaction);
      _ ← updateTransactionStatus id "failed";
      mret (Result.mk false transaction None).

Definition processTransfer (env : Env) (sourceAccount destinationAccount : string)
    (amount : Z) : M Result.t :=
  sourceBalance ← gets (getCustomerBalance sourceAccount);
  if insufficient sourceBalance amount then
    transaction ← createTransaction env
      (Fields.mk sourceAccount (Some destinationAccount) "transfer" amount
         (Some "failed") (Some "Insufficient funds"));
    mret (Result.mk false transaction (Some "Insufficient funds"))
  else
    destinationCustomer ← gets (getCustomerByAccountNumber destinationAccount);
    if destinationCustomer is None then
      transaction ← createTransaction env
        (Fields.mk sourceAccount (Some destinationAccount) "transfer" amount
           (Some "failed") (Some "Destination account not found"));
      mret (Result.mk false transaction (Some "Destination account not found"))
    else
      transaction ← createTransaction env
        (Fields.mk sourceAccount (Some destinationAccount) "transfer" amount
           None None);
      sourceUpdate ← updateCustomerBalance sourceAccount (- amount);
      destUpdate ← updateCustomerBalance destinationAccount amount;
      if (sourceUpdate && destUpdate)%bool then
        id ← gets (id_of transaction);
        _ ← updateTransactionStatus id "completed";
        mret (Result.mk true transaction None)
      else
        _ ← (if (sourceUpdate : bool)
             then updateCustomerBalance sourceAccount amount
             else mret false);
        id ← gets (id_of transaction);
        _ ← updateTransactionStatus id "failed";
        mret (Result.mk false transaction None).

Definition step (db : Db) (o : Op) : Db :=
  match o with
  | Deposit env a x => (processDeposit env a x db).2
  | Withdrawal env a x => (processWithdrawal env a x db).2
  | Transfer env s d x => (processTransfer env s d x db).2
  | TrackSession i b => (trackSession i b db).2
  end.

Definition run (ops : list Op) (db : Db) : Db := foldl step db ops.

End Binary64.

(** The balance an adjustment writes is a safe integer, so that the double
    addition is exact. *)
Definition exact_adjust (accountNumber : string) (amount : Z) (db : Db) : Prop :=
  ∀ b, getCustomerBalance accountNumber db = Some b → safe (b + amount).

(** The debit and the credit of a transfer both write safe integers. *)
Definition exact_transfer (sourceAccount destinationAccount : string)
    (amount : Z) (db : Db) : Prop :=
  ∀ bs bd,
    getCustomerBalance sourceAccount db = Some bs →
    getCustomerBalance destinationAccount db = Some bd →
    safe (bs - amount) ∧
    safe ((if decide (destinationAccount = sourceAccount)
           then bs - amount else bd) + amount).



(** ** Facts about the primitives *)

Section primitives.
Implicit Types (db : Db) (env : Env) (cs : list Customer.t)
  (ts : list Transaction.t).

Lemma sum_balances_alter cs i c amount :
  cs !! i = Some c →
  sum_balances (alter (add_balance amount) i cs) = sum_balances cs + amount.
Proof.
  revert i. induction cs as [|c' cs IH]; intros [|i] Hi; simplify_eq/=.
  - lia.
  - rewrite (IH _ Hi). lia.
Qed.

Lemma list_find_account_Some n cs i c :
  list_find (has_account n) cs = Some (i, c) →
  cs !! i = Some c ∧ Customer.accountNumber c = n.
Proof. intros (? & ? & _)%list_find_Some. done. Qed.

(** Looking an account up after the balance of the first customer with
    account [n] has been changed. *)
Lemma list_find_account_alter n m cs i c amount :
  list_find (has_account n) cs = Some (i, c) →
  list_find (has_account m) (alter (add_balance amount) i cs) =
    if decide (m = n) then Some (i, add_balance amount c)
    else list_find (has_account m) cs.
Proof.
  unfold has_account.
  revert i. induction cs as [|c' cs IH]; intros i Hi; [done|].
  cbn [list_find] in Hi.
  destruct (decide (Customer.accountNumber c' = n)) as [Hn|Hn].
  - injection Hi as <- <-. cbn.
    destruct (decide (m = n)) as [->|Hm].
    + by rewrite decide_True.
    + by rewrite !decide_False by congruence.
  - destruct (list_find _ cs) as [[j d]|] eqn:Hf; [|done].
    injection Hi as <- <-. specialize (IH _ eq_refl).
    cbn. rewrite IH.
    destruct (decide (m = n)) as [->|Hm].
    + by rewrite decide_False.
    + done.
Qed.

Lemma getCustomerBalance_find n db :
  getCustomerBalance n db =
    (Customer.balance ∘ snd) <$> list_find (has_account n) (customers db).
Proof.
  unfold getCustomerBalance. by destruct (list_find _ _) as [[??]|].
Qed.

Lemma getCustomerByAccountNumber_balance n db :
  Customer.balance <$> getCustomerByAccountNumber n db =
    getCustomerBalance n db.
Proof.
  rewrite getCustomerBalance_find. unfold getCustomerByAccountNumber.
  by destruct (list_find _ _) as [[??]|].
Qed.

(** [updateCustomerBalance] by cases on the balance read beforehand. *)
Lemma updateCustomerBalance_None n amount db :
  getCustomerBalance n db = None →
  updateCustomerBalance n amount db = (false, db).
Proof.
  unfold getCustomerBalance, updateCustomerBalance.
  by destruct (list_find _ _) as [[??]|].
Qed.

Lemma updateCustomerBalance_Some n amount db b :
  getCustomerBalance n db = Some b →
  ∃ db', updateCustomerBalance n amount db = (true, db') ∧
    transactions db' = transactions db ∧
    sessions db' = sessions db ∧
    analytics db' = analytics db ∧
    length (customers db') = length (customers db) ∧
    total_balance db' = total_balance db + amount ∧
    (∀ m, getCustomerBalance m db' =
            if decide (m = n) then Some (b + amount)
            else getCustomerBalance m db) ∧
    (amount = 0 → customers db' = customers db).
Proof.
  unfold getCustomerBalance at 1, updateCustomerBalance.
  destruct (list_find _ _) as [[i c]|] eqn:Hf; [|done].
  intros [= <-]. eexists; split; [done|]. cbn.
  destruct (list_find_account_Some _ _ _ _ Hf) as [Hi _].
  split_and!; try done.
  - by rewrite length_alter.
  - unfold total_balance; cbn. by eapply sum_balances_alter.
  - intros m. unfold getCustomerBalance; cbn.
    rewrite (list_find_account_alter n m _ _ _ _ Hf).
    by case_decide.
  - intros ->. apply list_alter_id.
    intros [?????]; unfold add_balance; cbn. f_equal. lia.
Qed.

Lemma updateCustomerBalance_frame n amount db :
  transactions (updateCustomerBalance n amount db).2 = transactions db ∧
  sessions (updateCustomerBalance n amount db).2 = sessions db ∧
  analytics (updateCustomerBalance n amount db).2 = analytics db.
Proof.
  unfold updateCustomerBalance. by destruct (list_find _ _) as [[??]|].
Qed.


Lemma createTransaction_eq env f db :
  createTransaction env f db =
    (length (transactions db),
     mkDb (customers db) (transactions db ++ [newTransaction env f])
       (sessions db) (bump_analytics f (analytics db))).
Proof. done. Qed.

Lemma id_of_last db ts x :
  transactions db = ts ++ [x] → id_of (length ts) db = Transaction.id x.
Proof.
  intros E. unfold id_of. rewrite E.
  by rewrite list_lookup_total_middle.
Qed.

Lemma updateTransactionStatus_frame id s db :
  customers (updateTransactionStatus id s db).2 = customers db ∧
  sessions (updateTransactionStatus id s db).2 = sessions db ∧
  analytics (updateTransactionStatus id s db).2 = analytics db ∧
  length (transactions (updateTransactionStatus id s db).2) =
    length (transactions db).
Proof.
  unfold updateTransactionStatus.
  destruct (list_find _ _) as [[??]|]; cbn; [|done].
  by rewrite length_alter.
Qed.

(** With a fresh id the status update lands on the record just pushed. *)
Lemma updateTransactionStatus_fresh s db ts x :
  transactions db = ts ++ [x] →
  Forall (λ y, ¬ has_id (Transaction.id x) y) ts →
  transactions (updateTransactionStatus (Transaction.id x) s db).2 =
    ts ++ [Transaction.set_status s x].
Proof.
  intros E Hfresh. unfold updateTransactionStatus. rewrite E.
  assert (list_find (has_id (Transaction.id x)) (ts ++ [x]) =
          Some (length ts, x)) as ->.
  { apply list_find_Some. split_and!.
    - by rewrite list_lookup_middle.
    - done.
    - intros j y Hj Hlt. rewrite lookup_app_l in Hj by done.
      by eapply (Forall_lookup_1 _ _ _ _ Hfresh). }
  cbn. rewrite alter_app_r_alt by done.
  by rewrite Nat.sub_diag.
Qed.

End primitives.

(** ** The three engine operations, path by path *)

Section engine.
Implicit Types (db : Db) (env : Env).

Lemma getCustomerBalance_ext n db db' :
  customers db = customers db' →
  getCustomerBalance n db = getCustomerBalance n db'.
Proof. unfold getCustomerBalance. by intros ->. Qed.

(** The tail shared by the three operations once the pending record is in
    the log: read [transaction.id], set the status, build the result. *)
Lemma finalize_eq env f db0 db ok s :
  transactions db = transactions db0 ++ [newTransaction env f] →
  (id ← gets (id_of (length (transactions db0)));
   _ ← updateTransactionStatus id s;
   mret (Result.mk ok (length (transactions db0)) None)) db =
  (Result.mk ok (length (transactions db0)) None,
   (updateTransactionStatus (uuidv4 env) s db).2).
Proof.
  intros E. unfold mbind, M_bind, gets, mret, M_ret.
  rewrite (id_of_last _ _ _ E). cbn.
  by destruct (updateTransactionStatus _ _ _).
Qed.

Lemma processDeposit_eq env n x db :
  processDeposit env n x db =
    let r := updateCustomerBalance n x
               (createTransaction env (deposit_fields n x) db).2 in
    (Result.mk r.1 (length (transactions db)) None,
     (updateTransactionStatus (uuidv4 env)
        (if r.1 then "completed" else "failed") r.2).2).
Proof.
  unfold processDeposit, deposit_fields.
  unfold mbind at 1 2, M_bind at 1 2. rewrite createTransaction_eq.
  cbn [snd].
  pose proof (updateCustomerBalance_frame n x
    (mkDb (customers db)
       (transactions db ++ [newTransaction env (Fields.mk n None "deposit" x None None)])
       (sessions db)
       (bump_analytics (Fields.mk n None "deposit" x None None) (analytics db))))
    as (Ht & _).
  destruct (updateCustomerBalance _ _ _) as [[] db2]; cbn in Ht |- *;
    by erewrite finalize_eq.
Qed.

Lemma processWithdrawal_rejected env n x db :
  insufficient (getCustomerBalance n db) x = true →
  processWithdrawal env n x db =
    (Result.mk false (length (transactions db)) (Some "Insufficient funds"),
     (createTransaction env
        (Fields.mk n None "withdrawal" x (Some "failed")
           (Some "Insufficient funds")) db).2).
Proof.
  intros H. unfold processWithdrawal.
  unfold mbind at 1, M_bind at 1, gets at 1. rewrite H.
  by unfold mbind, M_bind.
Qed.

Lemma processWithdrawal_accepted env n x db :
  insufficient (getCustomerBalance n db) x = false →
  processWithdrawal env n x db =
    let r := updateCustomerBalance n (- x)
               (createTransaction env
                  (Fields.mk n None "withdrawal" x None None) db).2 in
    (Result.mk r.1 (length (transactions db)) None,
     (updateTransactionStatus (uuidv4 env)
        (if r.1 then "completed" else "failed") r.2).2).
Proof.
  intros H. unfold processWithdrawal.
  unfold mbind at 1, M_bind at 1, gets at 1. rewrite H.
  unfold mbind at 1 2, M_bind at 1 2. rewrite createTransaction_eq.
  cbn [snd].
  match goal with |- context [updateCustomerBalance n (- x) ?d] =>
    pose proof (updateCustomerBalance_frame n (- x) d) as (Ht & _) end.
  destruct (updateCustomerBalance _ _ _) as [[] db2]; cbn in Ht |- *;
    by erewrite finalize_eq.
Qed.

Lemma processTransfer_rejected env s d x db :
  insufficient (getCustomerBalance s db) x = true →
  processTransfer env s d x db =
    (Result.mk false (length (transactions db)) (Some "Insufficient funds"),
     (createTransaction env
        (Fields.mk s (Some d) "transfer" x (Some "failed")
           (Some "Insufficient funds")) db).2).
Proof.
  intros H. unfold processTransfer.
  unfold mbind at 1, M_bind at 1, gets at 1. rewrite H.
  by unfold mbind, M_bind.
Qed.

Lemma processTransfer_no_destination env s d x db :
  insufficient (getCustomerBalance s db) x = false →
  getCustomerByAccountNumber d db = None →
  processTransfer env s d x db =
    (Result.mk false (length (transactions db))
       (Some "Destination account not found"),
     (createTransaction env
        (Fields.mk s (Some d) "transfer" x (Some "failed")
           (Some "Destination account not found")) db).2).
Proof.
  intros H Hd. unfold processTransfer.
  unfold mbind at 1, M_bind at 1, gets at 1. rewrite H.
  unfold mbind at 1, M_bind at 1, gets at 1. rewrite Hd.
  by unfold mbind, M_bind.
Qed.

Lemma processTransfer_accepted env s d x db c :
  insufficient (getCustomerBalance s db) x = false →
  getCustomerByAccountNumber d db = Some c →
  processTransfer env s d x db =
    let r1 := updateCustomerBalance s (- x)
                (createTransaction env
                   (Fields.mk s (Some d) "transfer" x None None) db).2 in
    let r2 := updateCustomerBalance d x r1.2 in
    if (r1.1 && r2.1)%bool then
      (Result.mk true (length (transactions db)) None,
       (updateTransactionStatus (uuidv4 env) "completed" r2.2).2)
    else
      (Result.mk false (length (transactions db)) None,
       (updateTransactionStatus (uuidv4 env) "failed"
          (if r1.1 then (updateCustomerBalance s x r2.2).2 else r2.2)).2).
Proof.
  intros H Hd. unfold processTransfer.
  unfold mbind at 1, M_bind at 1, gets at 1. rewrite H.
  unfold mbind at 1, M_bind at 1, gets at 1. rewrite Hd.
  unfold mbind at 1 2 3, M_bind at 1 2 3. rewrite createTransaction_eq.
  cbn [snd].
  match goal with |- context [updateCustomerBalance s (- x) ?d1] =>
    pose proof (updateCustomerBalance_frame s (- x) d1) as (Ht1 & _) end.
  destruct (updateCustomerBalance s _ _) as [u1 db1]; cbn [fst snd] in *.
  pose proof (updateCustomerBalance_frame d x db1) as (Ht2 & _).
  destruct (updateCustomerBalance d _ _) as [u2 db2]; cbn [fst snd] in *.
  rewrite Ht1 in Ht2; cbn in Ht2.
  destruct u1, u2; cbn [andb].
  - by erewrite finalize_eq.
  - unfold mbind at 1, M_bind at 1.
    pose proof (updateCustomerBalance_frame s x db2) as (Ht3 & _).
    destruct (updateCustomerBalance s x db2) as [u3 db3]; cbn [fst snd] in *.
    rewrite Ht2 in Ht3. by erewrite finalize_eq.
  - unfold mbind at 1, M_bind at 1, mret at 1, M_ret at 1.
    by erewrite finalize_eq.
  - unfold mbind at 1, M_bind at 1, mret at 1, M_ret at 1.
    by erewrite finalize_eq.
Qed.

Lemma finalize_fresh env f s db0 db :
  fresh env db0 →
  transactions db = transactions db0 ++ [newTransaction env f] →
  transactions (updateTransactionStatus (uuidv4 env) s db).2 =
    transactions db0 ++ [Transaction.set_status s (newTransaction env f)].
Proof.
  intros Hfresh E.
  by apply (updateTransactionStatus_fresh s db _ (newTransaction env f)).
Qed.

Lemma insufficient_false o x :
  insufficient o x = false ↔ ∃ b, o = Some b ∧ x ≤ b.
Proof.
  destruct o as [b|]; cbn.
  - rewrite bool_decide_eq_false. split.
    + intros ?. exists b. split; [done|lia].
    + intros (? & [= <-] & ?). lia.
  - split; [done|]. by intros (? & ? & _).
Qed.

Lemma insufficient_true o x :
  insufficient o x = true ↔ o = None ∨ ∃ b, o = Some b ∧ b < x.
Proof.
  destruct o as [b|]; cbn.
  - rewrite bool_decide_eq_true. split; [by eauto|].
    by intros [|(? & [= <-] & ?)].
  - split; auto.
Qed.

(** A deposit to an existing account. *)
Lemma processDeposit_settles env n x db b :
  getCustomerBalance n db = Some b →
  ∃ db2,
    processDeposit env n x db =
      (Result.mk true (length (transactions db)) None,
       (updateTransactionStatus (uuidv4 env) "completed" db2).2) ∧
    transactions db2 =
      transactions db ++ [newTransaction env (deposit_fields n x)] ∧
    total_balance db2 = total_balance db + x ∧
    (∀ m, getCustomerBalance m db2 =
            if decide (m = n) then Some (b + x)
            else getCustomerBalance m db) ∧
    (x = 0 → customers db2 = customers db).
Proof.
  intros Hb. rewrite processDeposit_eq, createTransaction_eq. cbn [snd].
  match goal with |- context [updateCustomerBalance n x ?d] =>
    destruct (updateCustomerBalance_Some n x d b) as
      (db2 & -> & Ht & _ & _ & _ & Hsum & Hbal & Hz); [exact Hb|] end.
  exists db2. cbn. by split_and!.
Qed.

(** A deposit to an account number that matches no customer. *)
Lemma processDeposit_misses env n x db :
  getCustomerBalance n db = None →
  processDeposit env n x db =
    (Result.mk false (length (transactions db)) None,
     (updateTransactionStatus (uuidv4 env) "failed"
        (createTransaction env (deposit_fields n x) db).2).2).
Proof.
  intros Hb. rewrite processDeposit_eq, createTransaction_eq. cbn [snd].
  by rewrite updateCustomerBalance_None.
Qed.

(** A withdrawal that passes the balance check. *)
Lemma processWithdrawal_settles env n x db b :
  getCustomerBalance n db = Some b → x ≤ b →
  ∃ db2,
    processWithdrawal env n x db =
      (Result.mk true (length (transactions db)) None,
       (updateTransactionStatus (uuidv4 env) "completed" db2).2) ∧
    transactions db2 =
      transactions db ++
        [newTransaction env (Fields.mk n None "withdrawal" x None None)] ∧
    total_balance db2 = total_balance db - x ∧
    (∀ m, getCustomerBalance m db2 =
            if decide (m = n) then Some (b - x)
            else getCustomerBalance m db) ∧
    (x = 0 → customers db2 = customers db).
Proof.
  intros Hb Hle. rewrite processWithdrawal_accepted
    by (apply insufficient_false; eauto).
  rewrite createTransaction_eq. cbn [snd].
  match goal with |- context [updateCustomerBalance n (- x) ?d] =>
    destruct (updateCustomerBalance_Some n (- x) d b) as
      (db2 & -> & Ht & _ & _ & _ & Hsum & Hbal & Hz); [exact Hb|] end.
  exists db2. cbn. split_and!; try done.
  intros ->. by apply Hz.
Qed.

(** A transfer that passes both checks: debit, then credit. *)
Lemma processTransfer_settles env s d x db bs bd :
  getCustomerBalance s db = Some bs → x ≤ bs →
  getCustomerBalance d db = Some bd →
  ∃ db2,
    processTransfer env s d x db =
      (Result.mk true (length (transactions db)) None,
       (updateTransactionStatus (uuidv4 env) "completed" db2).2) ∧
    transactions db2 =
      transactions db ++
        [newTransaction env (Fields.mk s (Some d) "transfer" x None None)] ∧
    total_balance db2 = total_balance db ∧
    (∀ m, getCustomerBalance m db2 =
            if decide (m = d)
            then Some ((if decide (d = s) then bs - x else bd) + x)
            else if decide (m = s) then Some (bs - x)
            else getCustomerBalance m db) ∧
    (x = 0 → customers db2 = customers db).
Proof.
  intros Hs Hle Hd.
  pose proof (getCustomerByAccountNumber_balance d db) as Hc.
  rewrite Hd in Hc.
  destruct (getCustomerByAccountNumber d db) as [c|] eqn:Hdc; [|done].
  rewrite (processTransfer_accepted env s d x db c)
    by (done || apply insufficient_false; eauto).
  rewrite createTransaction_eq. cbn [snd].
  match goal with |- context [updateCustomerBalance s (- x) ?d1] =>
    destruct (updateCustomerBalance_Some s (- x) d1 bs) as
      (db1 & -> & Ht1 & _ & _ & _ & Hsum1 & Hbal1 & Hz1); [exact Hs|] end.
  cbn [fst snd].
  destruct (updateCustomerBalance_Some d x db1
              (if decide (d = s) then bs - x else bd)) as
    (db2 & -> & Ht2 & _ & _ & _ & Hsum2 & Hbal2 & Hz2).
  { rewrite Hbal1. case_decide; [done|]. exact Hd. }
  cbn [fst snd andb]. exists db2. split_and!; try done.
  - by rewrite Ht2, Ht1.
  - rewrite Hsum2, Hsum1. unfold total_balance; cbn [customers]. lia.
  - intros m. rewrite Hbal2. by rewrite Hbal1.
  - intros ->. rewrite Hz2, Hz1; done.
Qed.

(** Whatever the path, a transfer that reports success kept the total. *)
Lemma processTransfer_success env s d x db :
  Result.success (processTransfer env s d x db).1 = true →
  ∃ bs bd, getCustomerBalance s db = Some bs ∧ x ≤ bs ∧
           getCustomerBalance d db = Some bd.
Proof.
  destruct (insufficient (getCustomerBalance s db) x) eqn:Hi.
  { by rewrite processTransfer_rejected. }
  destruct (getCustomerByAccountNumber d db) as [c|] eqn:Hd.
  2: { by rewrite processTransfer_no_destination. }
  intros _. apply insufficient_false in Hi as (bs & Hs & Hle).
  exists bs, (Customer.balance c). split_and!; [done..|].
  by rewrite <- getCustomerByAccountNumber_balance, Hd.
Qed.

End engine.

(** ** What each operation leaves in the log and in the customer table *)

Section outcomes.
Implicit Types (db : Db) (env : Env).

Lemma createTransaction_frame env f db :
  customers (createTransaction env f db).2 = customers db ∧
  sessions (createTransaction env f db).2 = sessions db ∧
  transactions (createTransaction env f db).2 =
    transactions db ++ [newTransaction env f].
Proof. done. Qed.

Lemma settle_length env f s db0 db :
  transactions db = transactions db0 ++ [newTransaction env f] →
  length (transactions (updateTransactionStatus (uuidv4 env) s db).2) =
    S (length (transactions db0)).
Proof.
  intros E.
  destruct (updateTransactionStatus_frame (uuidv4 env) s db)
    as (_ & _ & _ & ->).
  rewrite E, length_app. cbn. lia.
Qed.

(** Every call pushes one record, whatever the arguments. *)
Lemma processDeposit_appends_one env n x db :
  length (transactions (processDeposit env n x db).2) =
    S (length (transactions db)).
Proof.
  rewrite processDeposit_eq. cbn zeta. cbn [snd].
  eapply settle_length.
  by destruct (updateCustomerBalance_frame n x
    (createTransaction env (deposit_fields n x) db).2) as (-> & _).
Qed.

Lemma processWithdrawal_appends_one env n x db :
  length (transactions (processWithdrawal env n x db).2) =
    S (length (transactions db)).
Proof.
  destruct (insufficient (getCustomerBalance n db) x) eqn:Hi.
  - rewrite processWithdrawal_rejected by done. cbn.
    rewrite length_app. cbn. lia.
  - rewrite processWithdrawal_accepted by done. cbn zeta. cbn [snd].
    eapply settle_length.
    match goal with |- context [updateCustomerBalance n (- x) ?d] =>
      by destruct (updateCustomerBalance_frame n (- x) d) as (-> & _) end.
Qed.

Lemma processTransfer_appends_one env s d x db :
  length (transactions (processTransfer env s d x db).2) =
    S (length (transactions db)).
Proof.
  destruct (insufficient (getCustomerBalance s db) x) eqn:Hi.
  { rewrite processTransfer_rejected by done. cbn.
    rewrite length_app. cbn. lia. }
  destruct (getCustomerByAccountNumber d db) as [c|] eqn:Hd.
  2: { rewrite processTransfer_no_destination by done. cbn.
       rewrite length_app. cbn. lia. }
  apply insufficient_false in Hi as (bs & Hs & Hle).
  destruct (processTransfer_settles env s d x db bs (Customer.balance c))
    as (db2 & -> & Ht & _); [done..| |].
  { by rewrite <- getCustomerByAccountNumber_balance, Hd. }
  cbn [snd]. by eapply settle_length.
Qed.

Lemma processDeposit_log env n x db :
  fresh env db →
  let out := processDeposit env n x db in
  Result.transaction out.1 = length (transactions db) ∧
  transactions out.2 =
    transactions db ++ [logged env n None "deposit" x out.1].
Proof.
  intros Hfresh. rewrite processDeposit_eq. cbn zeta. cbn [fst snd].
  split; [done|].
  erewrite finalize_fresh; [|done|].
  2: { by destruct (updateCustomerBalance_frame n x
         (createTransaction env (deposit_fields n x) db).2) as (-> & _). }
  by destruct (updateCustomerBalance _ _ _) as [[] ?].
Qed.

Lemma processWithdrawal_log env n x db :
  fresh env db →
  let out := processWithdrawal env n x db in
  Result.transaction out.1 = length (transactions db) ∧
  transactions out.2 =
    transactions db ++ [logged env n None "withdrawal" x out.1].
Proof.
  intros Hfresh.
  destruct (insufficient (getCustomerBalance n db) x) eqn:Hi.
  - by rewrite processWithdrawal_rejected.
  - rewrite processWithdrawal_accepted by done. cbn zeta. cbn [fst snd].
    split; [done|].
    erewrite finalize_fresh; [|done|].
    2: { match goal with |- context [updateCustomerBalance n (- x) ?d] =>
           by destruct (updateCustomerBalance_frame n (- x) d) as (-> & _)
         end. }
    by destruct (updateCustomerBalance _ _ _) as [[] ?].
Qed.

Lemma processTransfer_log env s d x db :
  fresh env db →
  let out := processTransfer env s d x db in
  Result.transaction out.1 = length (transactions db) ∧
  transactions out.2 =
    transactions db ++ [logged env s (Some d) "transfer" x out.1].
Proof.
  intros Hfresh.
  destruct (insufficient (getCustomerBalance s db) x) eqn:Hi.
  { by rewrite processTransfer_rejected. }
  destruct (getCustomerByAccountNumber d db) as [c|] eqn:Hd.
  2: { by rewrite processTransfer_no_destination. }
  apply insufficient_false in Hi as (bs & Hs & Hle).
  destruct (processTransfer_settles env s d x db bs (Customer.balance c))
    as (db2 & -> & Ht & _); [done..| |].
  { by rewrite <- getCustomerByAccountNumber_balance, Hd. }
  cbn zeta. cbn [fst snd]. split; [done|].
  by rewrite (finalize_fresh env _ "completed" db db2 Hfresh Ht).
Qed.

(** When an operation reports success. *)
Lemma processDeposit_success env n x db :
  Result.success (processDeposit env n x db).1 =
    bool_decide (is_Some (getCustomerBalance n db)).
Proof.
  destruct (getCustomerBalance n db) as [b|] eqn:Hb.
  - destruct (processDeposit_settles env n x db b Hb) as (? & -> & _).
    by rewrite bool_decide_eq_true_2.
  - by rewrite processDeposit_misses.
Qed.

Lemma processWithdrawal_success env n x db :
  Result.success (processWithdrawal env n x db).1 =
    negb (insufficient (getCustomerBalance n db) x).
Proof.
  destruct (insufficient (getCustomerBalance n db) x) eqn:Hi.
  - by rewrite processWithdrawal_rejected.
  - apply insufficient_false in Hi as (b & Hb & Hle).
    by destruct (processWithdrawal_settles env n x db b Hb Hle)
      as (? & -> & _).
Qed.

(** A call that reports failure leaves the customer table as it was. *)
Lemma processDeposit_failure env n x db :
  Result.success (processDeposit env n x db).1 = false →
  customers (processDeposit env n x db).2 = customers db.
Proof.
  rewrite processDeposit_success. intros Hb%bool_decide_eq_false.
  rewrite processDeposit_misses.
  - cbn [snd].
    by destruct (updateTransactionStatus_frame (uuidv4 env) "failed"
      (createTransaction env (deposit_fields n x) db).2) as (-> & _).
  - destruct (getCustomerBalance n db); [|done]. by destruct Hb.
Qed.

Lemma processWithdrawal_failure env n x db :
  Result.success (processWithdrawal env n x db).1 = false →
  customers (processWithdrawal env n x db).2 = customers db.
Proof.
  rewrite processWithdrawal_success. intros Hi%negb_false_iff.
  by rewrite processWithdrawal_rejected.
Qed.

Lemma processTransfer_failure env s d x db :
  Result.success (processTransfer env s d x db).1 = false →
  customers (processTransfer env s d x db).2 = customers db.
Proof.
  destruct (insufficient (getCustomerBalance s db) x) eqn:Hi.
  { by rewrite processTransfer_rejected. }
  destruct (getCustomerByAccountNumber d db) as [c|] eqn:Hd.
  2: { by rewrite processTransfer_no_destination. }
  apply insufficient_false in Hi as (bs & Hs & Hle).
  destruct (processTransfer_settles env s d x db bs (Customer.balance c))
    as (db2 & -> & _); [done..| |done].
  by rewrite <- getCustomerByAccountNumber_balance, Hd.
Qed.
End outcomes.

(** ** Amounts of either sign *)

Section signs.
Implicit Types (db : Db) (env : Env).

Lemma settled_customers env s db2 :
  customers (updateTransactionStatus (uuidv4 env) s db2).2 = customers db2.
Proof. by destruct (updateTransactionStatus_frame (uuidv4 env) s db2). Qed.




(** The status read through the returned reference once the call is over
    is [completed] only on the path that reports success. *)
Lemma processWithdrawal_completed env n x db :
  let out := processWithdrawal env n x db in
  status_of (Result.transaction out.1) out.2 = Some "completed" →
  Result.success out.1 = true.
Proof.
  cbn zeta. destruct (insufficient (getCustomerBalance n db) x) eqn:Hi.
  - rewrite processWithdrawal_rejected by done. cbn.
    unfold status_of, deref; cbn. by rewrite list_lookup_middle.
  - by rewrite processWithdrawal_success, Hi.
Qed.

Lemma processTransfer_completed env s d x db :
  let out := processTransfer env s d x db in
  status_of (Result.transaction out.1) out.2 = Some "completed" →
  Result.success out.1 = true.
Proof.
  cbn zeta. destruct (insufficient (getCustomerBalance s db) x) eqn:Hi.
  { rewrite processTransfer_rejected by done. cbn.
    unfold status_of, deref; cbn. by rewrite list_lookup_middle. }
  destruct (getCustomerByAccountNumber d db) as [c|] eqn:Hd.
  2: { rewrite processTransfer_no_destination by done. cbn.
       unfold status_of, deref; cbn. by rewrite list_lookup_middle. }
  apply insufficient_false in Hi as (bs & Hs & Hle).
  destruct (processTransfer_settles env s d x db bs (Customer.balance c))
    as (db2 & -> & _); [done..| |done].
  by rewrite <- getCustomerByAccountNumber_balance, Hd.
Qed.

Lemma processWithdrawal_keeps_nonnegative env n x db :
  Result.success (processWithdrawal env n x db).1 = true →
  no_balance_turns_negative db (processWithdrawal env n x db).2.
Proof.
  rewrite processWithdrawal_success.
  intros (b & Hb & Hle)%negb_true_iff%insufficient_false.
  destruct (processWithdrawal_settles env n x db b Hb Hle)
    as (db2 & -> & _ & _ & Hbal & _).
  intros m bm Hm Hpos. cbn [snd].
  rewrite (getCustomerBalance_ext m _ db2) by apply settled_customers.
  rewrite Hbal. case_decide as Heq.
  - exists (b - x). split; [done|lia].
  - eauto.
Qed.

Lemma processTransfer_keeps_nonnegative env s d x db :
  0 ≤ x →
  Result.success (processTransfer env s d x db).1 = true →
  no_balance_turns_negative db (processTransfer env s d x db).2.
Proof.
  intros Hx (bs & bd & Hs & Hle & Hd)%processTransfer_success.
  destruct (processTransfer_settles env s d x db bs bd Hs Hle Hd)
    as (db2 & -> & _ & _ & Hbal & _).
  intros m bm Hm Hpos. cbn [snd].
  rewrite (getCustomerBalance_ext m _ db2) by apply settled_customers.
  rewrite Hbal. repeat case_decide; simplify_eq; eauto with lia.
Qed.
End signs.

(** ** Reading results *)

Section reading.
Implicit Types (db : Db) (env : Env).

Lemma lacks_funds_insufficient n x db :
  lacks_funds n x db ↔ insufficient (getCustomerBalance n db) x = true.
Proof. unfold lacks_funds. by rewrite insufficient_true. Qed.

Lemma logged_final env n dst ty x (out : Result.t * Db) db :
  Result.transaction out.1 = length (transactions db) →
  transactions out.2 = transactions db ++ [logged env n dst ty x out.1] →
  appends_one_final db out.
Proof.
  intros Href Hlog. eexists. split; [exact Hlog|].
  unfold deref. rewrite Href, Hlog, list_lookup_middle by done.
  split; [done|]. unfold logged; cbn.
  by destruct (Result.success out.1); split; auto.
Qed.
End reading.

(** ** Sessions *)

Section sessions.
Implicit Types (db : Db) (l : list string).

Lemma indexOf_absent x l : x ∉ l → indexOf x l = -1.
Proof.
  induction l as [|y l IH]; [done|].
  intros [Hy Hl]%not_elem_of_cons. cbn.
  rewrite decide_False by done. by rewrite (IH Hl).
Qed.

Lemma indexOf_present x l :
  x ∈ l →
  ∃ l1 l2, l = l1 ++ x :: l2 ∧ (x ∉ l1) ∧ indexOf x l = Z.of_nat (length l1).
Proof.
  induction l as [|y l IH]; [by intros ?%elem_of_nil|].
  intros Hx. cbn. destruct (decide (y = x)) as [->|Hne].
  - exists [], l. split_and!; [done| |done]. apply not_elem_of_nil.
  - apply elem_of_cons in Hx as [->|Hx]; [done|].
    destruct (IH Hx) as (l1 & l2 & -> & Hl1 & ->).
    exists (y :: l1), l2. split_and!.
    + done.
    + apply not_elem_of_cons. split; [by intros ->|done].
    + rewrite decide_False by lia. cbn [length]. lia.
Qed.
End sessions.

(** ** Invariants of monadic code *)

Section preservation.
Variable I : Db → Prop.

Lemma preserves_ret {A} (a : A) : preserves I (mret a).
Proof. by intros db. Qed.

Lemma preserves_gets {A} (f : Db → A) : preserves I (gets f).
Proof. by intros db. Qed.

Lemma preserves_bind {A B} (m : M A) (k : A → M B) :
  preserves I m → (∀ a, preserves I (k a)) → preserves I (m ≫= k).
Proof.
  intros Hm Hk db HI. unfold mbind, M_bind.
  specialize (Hm db HI). destruct (m db) as [a db1]. by apply Hk.
Qed.

(** The primitives that write are assumed to keep [I]; the engine
    operations then keep it too. *)
Hypothesis create_ok : ∀ env f, preserves I (createTransaction env f).
Hypothesis balance_ok : ∀ n x, preserves I (updateCustomerBalance n x).
Hypothesis status_ok : ∀ id s, preserves I (updateTransactionStatus id s).

Ltac preserve :=
  repeat first
    [ apply preserves_ret | apply preserves_gets | apply create_ok
    | apply balance_ok | apply status_ok
    | apply preserves_bind; [|intros ?]
    | match goal with
      | |- preserves _ (if ?b then _ else _) => destruct b
      | |- preserves _ (match ?o with Some _ => _ | None => _ end) =>
          destruct o
      end ].

Lemma processDeposit_preserves env n x : preserves I (processDeposit env n x).
Proof. unfold processDeposit. preserve. Qed.

Lemma processWithdrawal_preserves env n x :
  preserves I (processWithdrawal env n x).
Proof. unfold processWithdrawal. preserve. Qed.

Lemma processTransfer_preserves env s d x :
  preserves I (processTransfer env s d x).
Proof. unfold processTransfer. preserve. Qed.
End preservation.

(** ** The analytics totals follow the log *)

Section totals.
Implicit Types (db : Db) (ts : list Transaction.t).










End totals.

(** ** The rounded ledger and the exact one *)

Section rounding.
Implicit Types (db : Db) (env : Env).

Lemma round_double_safe z : safe z → round_double z = z.
Proof.
  unfold safe, round_double. intros H.
  by rewrite (proj2 (Z.leb_le _ _) H).
Qed.

Lemma js_add_safe a b : safe (a + b) → js_add a b = a + b.
Proof. apply round_double_safe. Qed.

(** While the balance written is a safe integer the rounded adjustment is the
    exact one. *)
Lemma updateCustomerBalance_exact n x db :
  exact_adjust n x db →
  Binary64.updateCustomerBalance n x db = updateCustomerBalance n x db.
Proof.
  unfold exact_adjust, getCustomerBalance, Binary64.updateCustomerBalance,
    updateCustomerBalance.
  destruct (list_find (has_account n) (customers db)) as [[i c]|] eqn:Hf;
    [|done].
  intros H. do 2 f_equal. apply list_alter_ext; [|done].
  intros c' Hc'. apply list_find_Some in Hf as (Hi & _).
  rewrite Hi in Hc'. injection Hc' as <-.
  unfold Binary64.add_balance, add_balance. f_equal.
  by apply js_add_safe, H.
Qed.



Lemma processTransfer_exact env s d x db :
  exact_transfer s d x db →
  Binary64.processTransfer env s d x db = processTransfer env s d x db.
Proof.
  intros H.
  destruct (insufficient (getCustomerBalance s db) x) eqn:Hi.
  { rewrite processTransfer_rejected by done.
    unfold Binary64.processTransfer.
    unfold mbind at 1, M_bind at 1, gets at 1. rewrite Hi.
    by unfold mbind, M_bind. }
  destruct (getCustomerByAccountNumber d db) as [c|] eqn:Hd.
  2: { rewrite processTransfer_no_destination by done.
       unfold Binary64.processTransfer.
       unfold mbind at 1, M_bind at 1, gets at 1. rewrite Hi.
       unfold mbind at 1, M_bind at 1, gets at 1. rewrite Hd.
       by unfold mbind, M_bind. }
  pose proof Hi as (bs & Hs & Hle)%insufficient_false.
  assert (getCustomerBalance d db = Some (Customer.balance c)) as Hbd.
  { by rewrite <- getCustomerByAccountNumber_balance, Hd. }
  destruct (H bs _ Hs Hbd) as [Hsafe1 Hsafe2].
  rewrite (processTransfer_accepted env s d x db c) by done.
  unfold Binary64.processTransfer.
  unfold mbind at 1, M_bind at 1, gets at 1. rewrite Hi.
  unfold mbind at 1, M_bind at 1, gets at 1. rewrite Hd.
  unfold mbind at 1 2 3, M_bind at 1 2 3. rewrite createTransaction_eq.
  cbn zeta. cbn [snd].
  match goal with |- context [updateCustomerBalance s (- x) ?d1] =>
    destruct (updateCustomerBalance_Some s (- x) d1 bs) as
      (db1 & E1 & Ht1 & _ & _ & _ & _ & Hbal1 & _); [exact Hs|];
    rewrite (updateCustomerBalance_exact s (- x) d1)
  end.
  2: { intros b Hb. change (getCustomerBalance s db = Some b) in Hb.
       rewrite Hs in Hb. injection Hb as <-. exact Hsafe1. }
  rewrite E1. cbn [fst snd].
  destruct (updateCustomerBalance_Some d x db1
              (if decide (d = s) then bs - x else Customer.balance c)) as
    (db2 & E2 & Ht2 & _).
  { rewrite Hbal1. case_decide; [done|exact Hbd]. }
  rewrite (updateCustomerBalance_exact d x db1).
  2: { intros b Hb. rewrite Hbal1 in Hb. revert Hsafe2 Hb.
       destruct (decide (d = s)); intros Hsafe2 Hb.
       - by injection Hb as <-.
       - change (getCustomerBalance d db = Some b) in Hb.
         rewrite Hbd in Hb. by injection Hb as <-. }
  rewrite E2. cbn [fst snd andb].
  rewrite Ht1 in Ht2. cbn in Ht2. by erewrite finalize_eq.
Qed.


End rounding.

(** * The claims *)

(** A transfer in the ledger over exact integers: success keeps the sum of
    the balances, and the 5000/7500/750 transfer settles as 4250/8250 with
    one completed record. *)
Lemma transfer_over_integers env A B amount db :
  A ≠ B →
  is_Some (getCustomerByAccountNumber A db) →
  is_Some (getCustomerByAccountNumber B db) →
  let out := processTransfer env A B amount db in
  (Result.success out.1 = true → total_balance out.2 = total_balance db) ∧
  (fresh env db →
   getCustomerBalance A db = Some 5000 →
   getCustomerBalance B db = Some 7500 →
   amount = 750 →
   Result.success out.1 = true ∧
   getCustomerBalance A out.2 = Some 4250 ∧
   getCustomerBalance B out.2 = Some 8250 ∧
   ∃ t, transactions out.2 = transactions db ++ [t] ∧
        deref (Result.transaction out.1) out.2 = Some t ∧
        Transaction.type t = "transfer" ∧
        Transaction.status t = "completed" ∧
        Transaction.accountNumber t = A ∧
        Transaction.destinationAccount t = Some B ∧
        Transaction.amount t = 750).
Proof.
  intros Hne _ _ out. subst out. split.
  - intros Hok.
    destruct (processTransfer_success _ _ _ _ _ Hok) as (bs & bd & Hs & Hle & Hd).
    destruct (processTransfer_settles env A B amount db bs bd Hs Hle Hd)
      as (db2 & -> & _ & Hsum & _).
    cbn [snd]. rewrite <- Hsum. unfold total_balance.
    by destruct (updateTransactionStatus_frame (uuidv4 env) "completed" db2)
      as (-> & _).
  - intros Hfresh HA HB ->.
    destruct (processTransfer_settles env A B 750 db 5000 7500 HA) as
      (db2 & -> & Ht & _ & Hbal & _); [lia|done|].
    cbn [fst snd Result.success Result.transaction].
    destruct (updateTransactionStatus_frame (uuidv4 env) "completed" db2)
      as (Hc & _).
    rewrite !(getCustomerBalance_ext _ _ db2 Hc), !Hbal.
    rewrite (decide_False (P := A = B)) by done.
    rewrite (decide_False (P := B = A)) by done.
    rewrite !decide_True by done.
    split_and!; try done.
    eexists. unfold deref.
    rewrite (finalize_fresh env _ "completed" db db2 Hfresh Ht).
    split; [done|]. by rewrite list_lookup_middle.
Qed.

(** C1. Conservation, where the arithmetic of the source is exact.  For every
    ledger state and every pair of distinct existing accounts [A] and [B]
    such that the balance debited and the balance credited are integers of
    magnitude at most [2^53], a [processTransfer A B amount] that returns
    success leaves the sum of all account balances as it was.  In particular,
    when [A] holds 5000 and [B] holds 7500, [processTransfer A B 750]
    succeeds, leaves [A] with 4250 and [B] with 8250, and appends exactly one
    record to the log: a transfer from [A] to [B] of 750 whose status is
    [completed] (the id handed out by [uuidv4] being new to the log). *)
Theorem C1_exact_transfer_conserves_total env A B amount db :
  A ≠ B →
  is_Some (getCustomerByAccountNumber A db) →
  is_Some (getCustomerByAccountNumber B db) →
  (∀ a b, getCustomerBalance A db = Some a →
          getCustomerBalance B db = Some b →
          safe (a - amount) ∧ safe (b + amount)) →
  let out := Binary64.processTransfer env A B amount db in
  (Result.success out.1 = true → total_balance out.2 = total_balance db) ∧
  (fresh env db →
   getCustomerBalance A db = Some 5000 →
   getCustomerBalance B db = Some 7500 →
   amount = 750 →
   Result.success out.1 = true ∧
   getCustomerBalance A out.2 = Some 4250 ∧
   getCustomerBalance B out.2 = Some 8250 ∧
   ∃ t, transactions out.2 = transactions db ++ [t] ∧
        deref (Result.transaction out.1) out.2 = Some t ∧
        Transaction.type t = "transfer" ∧
        Transaction.status t = "completed" ∧
        Transaction.accountNumber t = A ∧
        Transaction.destinationAccount t = Some B ∧
        Transaction.amount t = 750).
Proof.
  intros Hne HA HB Hsafe.
  rewrite processTransfer_exact.
  - by apply transfer_over_integers.
  - intros a b Ha Hb. rewrite decide_False by done. by apply Hsafe.
Qed.

Lemma C1_exact_transfer_conserves_total_witness :
  let env := mkEnv "3f0c" 1700000000000 in
  let out := Binary64.processTransfer env "10001" "10002" 750 (seed 0) in
  "10001" ≠ "10002" ∧
  is_Some (getCustomerByAccountNumber "10001" (seed 0)) ∧
  is_Some (getCustomerByAccountNumber "10002" (seed 0)) ∧
  (∀ a b, getCustomerBalance "10001" (seed 0) = Some a →
          getCustomerBalance "10002" (seed 0) = Some b →
          safe (a - 750) ∧ safe (b + 750)) ∧
  fresh env (seed 0) ∧
  getCustomerBalance "10001" (seed 0) = Some 5000 ∧
  getCustomerBalance "10002" (seed 0) = Some 7500 ∧
  Result.success out.1 = true ∧
  total_balance out.2 = total_balance (seed 0) ∧
  getCustomerBalance "10001" out.2 = Some 4250 ∧
  getCustomerBalance "10002" out.2 = Some 8250 ∧
  length (transactions out.2) = 4%nat.
Proof.
  intros env out.
  assert (fresh env (seed 0)) as Hfresh
    by (vm_compute; repeat constructor; by intros [=]).
  assert (is_Some (getCustomerByAccountNumber "10001" (seed 0))) as HA
    by by eexists.
  assert (is_Some (getCustomerByAccountNumber "10002" (seed 0))) as HB
    by by eexists.
  assert (∀ a b, getCustomerBalance "10001" (seed 0) = Some a →
                 getCustomerBalance "10002" (seed 0) = Some b →
                 safe (a - 750) ∧ safe (b + 750)) as Hsafe.
  { intros a b [= <-] [= <-]. unfold safe. split; lia. }
  destruct (C1_exact_transfer_conserves_total env "10001" "10002" 750 (seed 0))
    as [Hsum Hscenario]; [done|exact HA|exact HB|exact Hsafe|].
  destruct Hscenario as (Hok & HA' & HB' & t & Hlog & _); [done..|].
  split_and!;
    [done|exact HA|exact HB|exact Hsafe|exact Hfresh|done|done|exact Hok
    |by apply Hsum|exact HA'|exact HB'|].
  subst out. by rewrite Hlog, length_app.
Defined.

(** C1, as stated for every ledger state, fails where the double addition
    rounds.  A deposit of [2^53] takes account 10001 from 5000 to
    9007199254745992; a transfer of 1 from 10001 to 10002 then succeeds, the
    debit is rounded away and leaves 10001 as it was, the credit takes 10002
    from 7500 to 7501, and the sum of all balances has grown by 1. *)
Lemma C1_rounding_counterexample :
  let db :=
    (Binary64.processDeposit (mkEnv "77aa" 1700000000000) "10001"
       9007199254740992 (seed 0)).2 in
  let out :=
    Binary64.processTransfer (mkEnv "3f0c" 1700000000001) "10001" "10002" 1
      db in
  "10001" ≠ "10002" ∧
  getCustomerBalance "10001" db = Some 9007199254745992 ∧
  getCustomerBalance "10002" db = Some 7500 ∧
  Result.success out.1 = true ∧
  getCustomerBalance "10001" out.2 = Some 9007199254745992 ∧
  getCustomerBalance "10002" out.2 = Some 7501 ∧
  total_balance out.2 = total_balance db + 1 ∧
  total_balance out.2 ≠ total_balance db.
Proof. cbn zeta. split_and!; by vm_compute. Qed.






(** C4. From any state reached from the seed by a sequence of ledger
    operations (amounts of either sign), a withdrawal whose record is marked
    [completed] turns no non-negative balance negative, whatever its amount;
    a transfer whose record is marked [completed] turns no non-negative
    balance negative provided its amount is non-negative. *)
Theorem C4_completed_debits_keep_balances_nonnegative
    startup ops env A B amount :
  let db := run ops (seed startup) in
  let w := processWithdrawal env A amount db in
  let t := processTransfer env A B amount db in
  (status_of (Result.transaction w.1) w.2 = Some "completed" →
   no_balance_turns_negative db w.2) ∧
  (0 ≤ amount →
   status_of (Result.transaction t.1) t.2 = Some "completed" →
   no_balance_turns_negative db t.2).
Proof.
  cbn zeta. split.
  - intros H%processWithdrawal_completed.
    by apply processWithdrawal_keeps_nonnegative.
  - intros Hx H%processTransfer_completed.
    by apply processTransfer_keeps_nonnegative.
Qed.

Lemma C4_completed_debits_keep_balances_nonnegative_witness :
  let env := mkEnv "3f0c" 1700000000000 in
  let db := run [Deposit (mkEnv "77aa" 1700000000000) "10002" 40] (seed 0) in
  let t := processTransfer env "10001" "10002" 5000 db in
  0 ≤ 5000 ∧
  status_of (Result.transaction t.1) t.2 = Some "completed" ∧
  no_balance_turns_negative db t.2.
Proof.
  intros env db t.
  assert (status_of (Result.transaction t.1) t.2 = Some "completed") as Hst
    by by vm_compute.
  split; [lia|]. split; [exact Hst|].
  refine (proj2 (C4_completed_debits_keep_balances_nonnegative 0
    [Deposit (mkEnv "77aa" 1700000000000) "10002" 40] env
    "10001" "10002" 5000) _ Hst).
  lia.
Defined.

(** C4, as stated for amounts of either sign, fails: a transfer of -6000 from
    10003 to 10001 passes the balance check, is marked [completed], and
    takes the balance of 10001 from 5000 to -1000. *)
Lemma C4_negative_transfer_counterexample :
  let env := mkEnv "3f0c" 1700000000000 in
  let db := run [] (seed 0) in
  let t := processTransfer env "10003" "10001" (-6000) db in
  status_of (Result.transaction t.1) t.2 = Some "completed" ∧
  getCustomerBalance "10001" db = Some 5000 ∧
  getCustomerBalance "10001" t.2 = Some (-1000) ∧
  ¬ no_balance_turns_negative db t.2.
Proof.
  cbn zeta. split_and!; try by vm_compute.
  intros H. destruct (H "10001" 5000) as (b' & Hb' & Hpos);
    [by vm_compute|lia|].
  vm_compute in Hb'. injection Hb' as <-. lia.
Qed.

(** C5. Audit completeness: every call to [processDeposit],
    [processWithdrawal] or [processTransfer] with a positive amount appends
    exactly one record to the log, and when the call returns the status of
    that record is [completed] or [failed], never [pending] (the id handed
    out by [uuidv4] being new to the log). *)
Theorem C5_one_record_with_final_status env A B amount db :
  0 < amount →
  fresh env db →
  appends_one_final db (processDeposit env A amount db) ∧
  appends_one_final db (processWithdrawal env A amount db) ∧
  appends_one_final db (processTransfer env A B amount db).
Proof.
  intros _ Hfresh. split_and!.
  - destruct (processDeposit_log env A amount db Hfresh) as [Href Hlog].
    by eapply logged_final.
  - destruct (processWithdrawal_log env A amount db Hfresh) as [Href Hlog].
    by eapply logged_final.
  - destruct (processTransfer_log env A B amount db Hfresh) as [Href Hlog].
    by eapply logged_final.
Qed.

Lemma C5_one_record_with_final_status_witness :
  let env := mkEnv "3f0c" 1700000000000 in
  0 < 250 ∧ fresh env (seed 0) ∧
  appends_one_final (seed 0) (processDeposit env "10001" 250 (seed 0)) ∧
  appends_one_final (seed 0) (processWithdrawal env "10001" 250 (seed 0)) ∧
  appends_one_final (seed 0)
    (processTransfer env "10001" "10002" 250 (seed 0)).
Proof.
  intros env.
  assert (fresh env (seed 0)) as Hfresh
    by (vm_compute; repeat constructor; by intros [=]).
  split; [lia|]. split; [exact Hfresh|].
  apply (C5_one_record_with_final_status env "10001" "10002" 250 (seed 0));
    [lia|exact Hfresh].
Defined.

(** C6. For every positive amount, if the account is missing or holds
    strictly less than the amount, [processWithdrawal] returns failure with
    reason "insufficient funds" (spelled ['Insufficient funds'] by the
    source), the state it leaves is the one [createTransaction] produces:
    the log extended by exactly one withdrawal record created with status
    [failed], and every balance is as before. *)
Theorem C6_withdrawal_insufficient_funds env A amount db :
  0 < amount →
  lacks_funds A amount db →
  let out := processWithdrawal env A amount db in
  Result.success out.1 = false ∧
  Result.reason out.1 = Some "Insufficient funds" ∧
  reason_reads "insufficient funds" (Result.reason out.1) ∧
  deref (Result.transaction out.1) out.2 =
    Some (Transaction.mk (uuidv4 env) (now env) "failed" A None "withdrawal"
            amount (Some "Insufficient funds")) ∧
  transactions out.2 =
    transactions db ++
      [Transaction.mk (uuidv4 env) (now env) "failed" A None "withdrawal"
         amount (Some "Insufficient funds")] ∧
  customers out.2 = customers db.
Proof.
  intros _ Hi%lacks_funds_insufficient. cbn zeta.
  rewrite processWithdrawal_rejected by done.
  cbn [fst snd Result.success Result.reason Result.transaction].
  split_and!; try done.
  - by eexists.
  - unfold deref. cbn. by rewrite list_lookup_middle.
Qed.

Lemma C6_withdrawal_insufficient_funds_witness :
  let env := mkEnv "3f0c" 1700000000000 in
  let out := processWithdrawal env "10001" 6000 (seed 0) in
  0 < 6000 ∧ lacks_funds "10001" 6000 (seed 0) ∧
  Result.success out.1 = false ∧
  Result.reason out.1 = Some "Insufficient funds" ∧
  customers out.2 = customers (seed 0).
Proof.
  intros env out.
  assert (lacks_funds "10001" 6000 (seed 0)) as Hlack.
  { right. exists 5000. split; [by vm_compute|lia]. }
  split; [lia|]. split; [exact Hlack|].
  destruct (C6_withdrawal_insufficient_funds env "10001" 6000 (seed 0))
    as (Hok & Hreason & _ & _ & _ & Hcs); [lia|exact Hlack|].
  by split_and!.
Defined.

(** C7. [processTransfer] checks the source first: if the source account is
    missing or holds less than the amount, it pushes one record created
    [failed] with reason "insufficient funds" and stops, whether or not the
    destination exists.  Only then does it check the destination: for every
    source with sufficient balance and every destination account number that
    matches no customer, it returns failure with reason "destination account
    not found", pushes exactly one failed transfer record and changes no
    balance.  (The source spells the reasons ['Insufficient funds'] and
    ['Destination account not found'].) *)
Theorem C7_transfer_validation_order env A B amount db :
  let out := processTransfer env A B amount db in
  (lacks_funds A amount db →
   Result.success out.1 = false ∧
   Result.reason out.1 = Some "Insufficient funds" ∧
   reason_reads "insufficient funds" (Result.reason out.1) ∧
   transactions out.2 =
     transactions db ++
       [Transaction.mk (uuidv4 env) (now env) "failed" A (Some B) "transfer"
          amount (Some "Insufficient funds")] ∧
   customers out.2 = customers db) ∧
  (∀ b, getCustomerBalance A db = Some b → amount ≤ b →
        getCustomerByAccountNumber B db = None →
   Result.success out.1 = false ∧
   Result.reason out.1 = Some "Destination account not found" ∧
   reason_reads "destination account not found" (Result.reason out.1) ∧
   deref (Result.transaction out.1) out.2 =
     Some (Transaction.mk (uuidv4 env) (now env) "failed" A (Some B)
             "transfer" amount (Some "Destination account not found")) ∧
   transactions out.2 =
     transactions db ++
       [Transaction.mk (uuidv4 env) (now env) "failed" A (Some B) "transfer"
          amount (Some "Destination account not found")] ∧
   customers out.2 = customers db).
Proof.
  cbn zeta. split.
  - intros Hi%lacks_funds_insufficient.
    rewrite processTransfer_rejected by done.
    cbn [fst snd Result.success Result.reason].
    split_and!; try done. by eexists.
  - intros b Hb Hle Hd.
    rewrite processTransfer_no_destination
      by (done || apply insufficient_false; eauto).
    cbn [fst snd Result.success Result.reason Result.transaction].
    split_and!; try done.
    + by eexists.
    + unfold deref. cbn. by rewrite list_lookup_middle.
Qed.

Lemma C7_transfer_validation_order_witness :
  let env := mkEnv "3f0c" 1700000000000 in
  (lacks_funds "10001" 6000 (seed 0) ∧
   getCustomerByAccountNumber "nonexistent" (seed 0) = None ∧
   Result.reason (processTransfer env "10001" "nonexistent" 6000 (seed 0)).1
     = Some "Insufficient funds") ∧
  (getCustomerBalance "10001" (seed 0) = Some 5000 ∧ 100 ≤ 5000 ∧
   Result.reason (processTransfer env "10001" "nonexistent" 100 (seed 0)).1
     = Some "Destination account not found" ∧
   customers (processTransfer env "10001" "nonexistent" 100 (seed 0)).2
     = customers (seed 0)).
Proof.
  intros env. split.
  - assert (lacks_funds "10001" 6000 (seed 0)) as Hlack.
    { right. exists 5000. split; [by vm_compute|lia]. }
    split; [exact Hlack|]. split; [by vm_compute|].
    destruct (C7_transfer_validation_order env "10001" "nonexistent" 6000
                (seed 0)) as [Hfirst _].
    by destruct (Hfirst Hlack) as (_ & Hreason & _).
  - split; [by vm_compute|]. split; [lia|].
    destruct (C7_transfer_validation_order env "10001" "nonexistent" 100
                (seed 0)) as [_ Hsecond].
    destruct (Hsecond 5000) as (_ & Hreason & _ & _ & _ & Hcs);
      [by vm_compute|lia|by vm_compute|].
    by split.
Defined.

(** C8. For every positive amount and every account number that matches no
    customer, [processDeposit] first pushes a record with status [pending],
    [updateCustomerBalance] then returns [false] and changes nothing, and the
    record is marked [failed]; no reason is recorded, neither on the record
    nor in the result, and the result reports failure. *)
Theorem C8_deposit_to_missing_account env A amount db :
  0 < amount →
  fresh env db →
  getCustomerByAccountNumber A db = None →
  let created :=
    createTransaction env (Fields.mk A None "deposit" amount None None) db in
  let out := processDeposit env A amount db in
  status_of created.1 created.2 = Some "pending" ∧
  updateCustomerBalance A amount created.2 = (false, created.2) ∧
  Result.success out.1 = false ∧
  Result.reason out.1 = None ∧
  Result.transaction out.1 = created.1 ∧
  deref (Result.transaction out.1) out.2 =
    Some (Transaction.mk (uuidv4 env) (now env) "failed" A None "deposit"
            amount None) ∧
  transactions out.2 =
    transactions db ++
      [Transaction.mk (uuidv4 env) (now env) "failed" A None "deposit"
         amount None] ∧
  customers out.2 = customers db.
Proof.
  intros _ Hfresh Hmiss. cbn zeta.
  assert (getCustomerBalance A db = None) as Hb.
  { by rewrite <- getCustomerByAccountNumber_balance, Hmiss. }
  destruct (processDeposit_log env A amount db Hfresh) as [Href Hlog].
  assert (Result.success (processDeposit env A amount db).1 = false) as Hok.
  { by rewrite processDeposit_success, Hb. }
  assert (Result.reason (processDeposit env A amount db).1 = None) as Hreason.
  { by rewrite processDeposit_misses. }
  unfold logged in Hlog. rewrite Hok, Hreason in Hlog.
  split_and!; try done.
  - unfold status_of, deref. cbn. by rewrite list_lookup_middle.
  - by apply updateCustomerBalance_None.
  - unfold deref. by rewrite Href, Hlog, list_lookup_middle.
  - by apply processDeposit_failure.
Qed.

Lemma C8_deposit_to_missing_account_witness :
  let env := mkEnv "3f0c" 1700000000000 in
  let out := processDeposit env "99999" 100 (seed 0) in
  0 < 100 ∧ fresh env (seed 0) ∧
  getCustomerByAccountNumber "99999" (seed 0) = None ∧
  Result.success out.1 = false ∧ Result.reason out.1 = None ∧
  customers out.2 = customers (seed 0).
Proof.
  intros env out.
  assert (fresh env (seed 0)) as Hfresh
    by (vm_compute; repeat constructor; by intros [=]).
  split; [lia|]. split; [exact Hfresh|]. split; [by vm_compute|].
  destruct (C8_deposit_to_missing_account env "99999" 100 (seed 0))
    as (_ & _ & Hok & Hreason & _ & _ & _ & Hcs);
    [lia|exact Hfresh|by vm_compute|].
  by split_and!.
Defined.

(** C8, as stated, fails on the reason: after a deposit to an account number
    that matches no customer, the failed record carries no reason, and the
    result has none either. *)
Lemma C8_missing_reason_counterexample :
  let env := mkEnv "3f0c" 1700000000000 in
  let out := processDeposit env "99999" 100 (seed 0) in
  status_of (Result.transaction out.1) out.2 = Some "failed" ∧
  Transaction.reason <$> deref (Result.transaction out.1) out.2 = Some None ∧
  Result.reason out.1 = None ∧
  ¬ (∃ x, deref (Result.transaction out.1) out.2 = Some x ∧
          reason_reads "account not found" (Transaction.reason x)).
Proof.
  cbn zeta. split_and!; try by vm_compute.
  intros (x & Hx & s & Hs & _). vm_compute in Hx.
  injection Hx as <-. discriminate Hs.
Qed.

(** C9. [trackSession] keeps a list of session ids in which an id may occur
    more than once.  [trackSession(id, true)] always appends [id] and returns
    the count raised by one, also when [id] is already active.
    [trackSession(id, false)] leaves the list as it is when [id] is absent,
    and otherwise removes the first occurrence of [id].  After every call
    the count returned, which is also the stored [activeSessions], is the
    length of the list, ids counted as often as they occur. *)
Theorem C9_sessions_are_a_list sessionId db :
  let add := trackSession sessionId true db in
  let del := trackSession sessionId false db in
  (sessions add.2 = sessions db ++ [sessionId] ∧
   add.1 = Z.of_nat (length (sessions db)) + 1) ∧
  (sessionId ∉ sessions db →
   sessions del.2 = sessions db ∧
   del.1 = Z.of_nat (length (sessions db)) ∧
   (activeSessions (analytics db) = Z.of_nat (length (sessions db)) →
    del.2 = db)) ∧
  (sessionId ∈ sessions db →
   ∃ l1 l2, sessions db = l1 ++ sessionId :: l2 ∧ (sessionId ∉ l1) ∧
            sessions del.2 = l1 ++ l2 ∧
            del.1 = Z.of_nat (length (sessions db)) - 1) ∧
  (∀ active, let out := trackSession sessionId active db in
     out.1 = Z.of_nat (length (sessions out.2)) ∧
     activeSessions (analytics out.2) = out.1).
Proof.
  cbn zeta. split_and!.
  - done.
  - unfold trackSession; cbn. rewrite length_app; cbn. lia.
  - intros Habs. unfold trackSession.
    rewrite (indexOf_absent _ _ Habs). cbn. split_and!; [done..|].
    intros E. destruct db as [cs ts ss [a n d w t]]; cbn in *. by subst.
  - intros (l1 & l2 & E & Hl1 & Hi)%indexOf_present.
    exists l1, l2. unfold trackSession. rewrite Hi.
    rewrite decide_True by lia. cbn. rewrite Nat2Z.id, E, delete_middle.
    split_and!; [done..|]. rewrite !length_app. cbn [length]. lia.
  - intros []; unfold trackSession; cbn; [done|]. by case_decide.
Qed.

Lemma C9_sessions_are_a_list_witness :
  let db := (trackSession "s1" true (seed 0)).2 in
  ("s2" ∉ sessions db) ∧ ("s1" ∈ sessions db) ∧
  (trackSession "s2" false db).2 = db ∧
  (trackSession "s1" false db).1 = 0.
Proof.
  intros db.
  assert ("s2" ∉ sessions db) as Habs.
  { vm_compute. by intros [[=]|[]%elem_of_nil]%elem_of_cons. }
  assert ("s1" ∈ sessions db) as Hpres by (vm_compute; apply list_elem_of_here).
  split; [exact Habs|]. split; [exact Hpres|].
  split.
  - destruct (C9_sessions_are_a_list "s2" db) as (_ & Hdel & _).
    destruct (Hdel Habs) as (_ & _ & Hnoop). by apply Hnoop.
  - destruct (C9_sessions_are_a_list "s1" db) as (_ & _ & Hdel & _).
    destruct (Hdel Hpres) as (l1 & l2 & _ & _ & _ & ->). by vm_compute.
Defined.

(** C9, as stated, fails: activating an id that is already active raises the
    reported count, which then exceeds the number of distinct active ids. *)
Lemma C9_duplicate_session_counterexample :
  let db := (trackSession "s1" true (seed 0)).2 in
  let out := trackSession "s1" true db in
  ("s1" ∈ sessions db) ∧
  activeSessions (analytics db) = 1 ∧
  out.1 = 2 ∧
  distinct_sessions out.2 = 1 ∧
  out.1 ≠ distinct_sessions out.2.
Proof.
  cbn zeta. split_and!; try by vm_compute.
  vm_compute. apply list_elem_of_here.
Qed.

(** C10. For every account number [N], [getTransactionsByAccountNumber N]
    returns exactly the log entries whose source [accountNumber] is [N], in
    insertion order: an entry is returned if and only if it is in the log
    with source [N], the result is a sublist of the log, and pushing a record
    extends the result by that record when its source is [N] and leaves it
    alone otherwise.  A transfer whose [destinationAccount] is [N] and whose
    source is another account is never in the result; in particular a
    transfer from another account into [N] leaves the history of [N] as it
    was, even when it completes and raises the balance of [N]. *)
Theorem C10_history_lists_source_entries N db :
  (∀ x, x ∈ getTransactionsByAccountNumber N db ↔
        x ∈ transactions db ∧ Transaction.accountNumber x = N) ∧
  getTransactionsByAccountNumber N db `sublist_of` transactions db ∧
  (∀ x, getTransactionsByAccountNumber N
          (set_transactions (transactions db ++ [x]) db) =
        getTransactionsByAccountNumber N db ++
          (if decide (Transaction.accountNumber x = N) then [x] else [])) ∧
  (∀ x, Transaction.destinationAccount x = Some N →
        Transaction.accountNumber x ≠ N →
        x ∉ getTransactionsByAccountNumber N db) ∧
  (∀ env A amount, fresh env db → A ≠ N →
     let out := processTransfer env A N amount db in
     getTransactionsByAccountNumber N out.2 =
       getTransactionsByAccountNumber N db).
Proof.
  unfold getTransactionsByAccountNumber. split_and!.
  - intros x. rewrite list_elem_of_filter. tauto.
  - apply sublist_filter.
  - intros x. cbn. by rewrite filter_app.
  - intros x _ Hne [Hx _]%list_elem_of_filter. done.
  - intros env A amount Hfresh Hne. cbn zeta.
    destruct (processTransfer_log env A N amount db Hfresh) as [_ ->].
    rewrite filter_app, filter_cons, filter_nil. cbn.
    rewrite decide_False by done. by rewrite app_nil_r.
Qed.

Lemma C10_history_lists_source_entries_witness :
  let env := mkEnv "3f0c" 1700000000000 in
  let out := processTransfer env "10001" "10002" 750 (seed 0) in
  fresh env (seed 0) ∧ "10001" ≠ "10002" ∧
  Result.success out.1 = true ∧
  getCustomerBalance "10002" out.2 = Some 8250 ∧
  getTransactionsByAccountNumber "10002" out.2 =
    getTransactionsByAccountNumber "10002" (seed 0).
Proof.
  intros env out.
  assert (fresh env (seed 0)) as Hfresh
    by (vm_compute; repeat constructor; by intros [=]).
  split; [exact Hfresh|]. split; [done|].
  split; [by vm_compute|]. split; [by vm_compute|].
  destruct (C10_history_lists_source_entries "10002" (seed 0))
    as (_ & _ & _ & _ & Hkeep).
  by apply Hkeep.
Defined.


(** * Further properties of the ledger *)

(** ** The customer table *)

Section customer_table.
Implicit Types (db : Db) (cs : list Customer.t).

Lemma identity_alter amount i cs :
  identity <$> alter (add_balance amount) i cs = identity <$> cs.
Proof.
  revert i. induction cs as [|c cs IH]; intros [|i]; cbn; [done..| |].
  - done.
  - by rewrite IH.
Qed.

Lemma updateCustomerBalance_identity n amount db :
  identity <$> customers (updateCustomerBalance n amount db).2 =
  identity <$> customers db.
Proof.
  unfold updateCustomerBalance.
  destruct (list_find _ _) as [[i c]|]; cbn; [|done].
  apply identity_alter.
Qed.


Lemma getCustomerByAccountNumber_None n db :
  getCustomerByAccountNumber n db = None ↔ getCustomerBalance n db = None.
Proof.
  rewrite <- getCustomerByAccountNumber_balance.
  by destruct (getCustomerByAccountNumber n db).
Qed.
End customer_table.








(** X3. Looking a customer up by account number or by id returns the first
    customer of the table that carries it, and nothing when no customer
    does; [getCustomerBalance] is [null] exactly when the lookup by account
    number finds nobody, and otherwise is the balance of the customer
    found. *)
Theorem X3_customer_lookups n db :
  (∀ c, getCustomerByAccountNumber n db = Some c →
        Customer.accountNumber c = n ∧
        getCustomerBalance n db = Some (Customer.balance c) ∧
        ∃ i, customers db !! i = Some c ∧
             ∀ j c', customers db !! j = Some c' → (j < i)%nat →
                     Customer.accountNumber c' ≠ n) ∧
  (getCustomerByAccountNumber n db = None ↔
   ∀ c, c ∈ customers db → Customer.accountNumber c ≠ n) ∧
  (getCustomerBalance n db = None ↔ getCustomerByAccountNumber n db = None) ∧
  (∀ c, getCustomerById n db = Some c →
        Customer.id c = n ∧ c ∈ customers db ∧
        ∃ i, customers db !! i = Some c ∧
             ∀ j c', customers db !! j = Some c' → (j < i)%nat →
                     Customer.id c' ≠ n) ∧
  (getCustomerById n db = None ↔
   ∀ c, c ∈ customers db → Customer.id c ≠ n).
Proof.
  split_and!.
  - intros c Hc. pose proof (getCustomerByAccountNumber_balance n db) as Hb.
    rewrite Hc in Hb. cbn in Hb. unfold getCustomerByAccountNumber in Hc.
    destruct (list_find _ _) as [[i c0]|] eqn:Hf; simplify_eq/=.
    apply list_find_Some in Hf as (Hi & Hn & Hfirst).
    split_and!; [done..|]. exists i. split; [done|].
    intros j c' Hj Hlt. by apply (Hfirst j c').
  - unfold getCustomerByAccountNumber. rewrite fmap_None, list_find_None.
    by rewrite Forall_forall.
  - by rewrite getCustomerByAccountNumber_None.
  - unfold getCustomerById. intros c Hc.
    destruct (list_find _ _) as [[i c0]|] eqn:Hf; simplify_eq/=.
    apply list_find_Some in Hf as (Hi & Hn & Hfirst).
    split; [done|]. split; [by eapply list_elem_of_lookup_2|].
    exists i. split; [done|]. intros j c' Hj Hlt. by apply (Hfirst j c').
  - unfold getCustomerById. rewrite fmap_None, list_find_None.
    by rewrite Forall_forall.
Qed.

Lemma X3_customer_lookups_witness :
  (∃ c, getCustomerByAccountNumber "10002" (seed 0) = Some c ∧
        Customer.accountNumber c = "10002" ∧
        getCustomerBalance "10002" (seed 0) = Some (Customer.balance c)) ∧
  (∃ c, getCustomerById "3" (seed 0) = Some c ∧ Customer.id c = "3").
Proof.
  split.
  - eexists. split; [by vm_compute|].
    destruct (X3_customer_lookups "10002" (seed 0)) as (H & _).
    edestruct H as (Hn & Hb & _); [by vm_compute|]. by split.
  - eexists. split; [by vm_compute|].
    destruct (X3_customer_lookups "3" (seed 0)) as (_ & _ & _ & H & _).
    edestruct H as (Hn & _); [by vm_compute|]. done.
Defined.

(** ** Outcomes of the engine operations *)

Section engine_outcomes.
Implicit Types (db : Db) (env : Env).

Lemma exists_iff_balance n db :
  is_Some (getCustomerByAccountNumber n db) ↔
  ∃ b, getCustomerBalance n db = Some b.
Proof.
  rewrite <- getCustomerByAccountNumber_balance.
  destruct (getCustomerByAccountNumber n db) as [c|]; cbn.
  - split; [by eauto|]. by intros _.
  - split; [by intros [??]|]. by intros [??].
Qed.

Lemma processTransfer_succeeds_iff env s d x db :
  Result.success (processTransfer env s d x db).1 = true ↔
  (∃ b, getCustomerBalance s db = Some b ∧ x ≤ b) ∧
  is_Some (getCustomerByAccountNumber d db).
Proof.
  split.
  - intros (bs & bd & Hs & Hle & Hd)%processTransfer_success.
    split; [by eauto|]. apply exists_iff_balance. eauto.
  - intros [(bs & Hs & Hle) (bd & Hd)%exists_iff_balance].
    by destruct (processTransfer_settles env s d x db bs bd Hs Hle Hd)
      as (db2 & -> & _).
Qed.



End engine_outcomes.

(** X4. When the engine reports success.  A deposit succeeds exactly when the
    account exists; a withdrawal exactly when the account exists and holds at
    least the amount; a transfer exactly when the source exists and holds at
    least the amount and the destination exists.  The sign of the amount
    plays no part. *)
Theorem X4_success_conditions env A B amount db :
  (Result.success (processDeposit env A amount db).1 = true ↔
   is_Some (getCustomerByAccountNumber A db)) ∧
  (Result.success (processWithdrawal env A amount db).1 = true ↔
   ∃ b, getCustomerBalance A db = Some b ∧ amount ≤ b) ∧
  (Result.success (processTransfer env A B amount db).1 = true ↔
   (∃ b, getCustomerBalance A db = Some b ∧ amount ≤ b) ∧
   is_Some (getCustomerByAccountNumber B db)).
Proof.
  split_and!.
  - rewrite processDeposit_success, bool_decide_eq_true, exists_iff_balance.
    split; [by intros [b ?]; exists b|by intros [b ?]; exists b].
  - rewrite processWithdrawal_success, negb_true_iff.
    apply insufficient_false.
  - apply processTransfer_succeeds_iff.
Qed.

(** X5. All or nothing: a deposit, withdrawal or transfer that reports
    failure has changed no customer record, and has still pushed its one
    record to the log. *)
Theorem X5_failure_changes_no_balance env A B amount db :
  (Result.success (processDeposit env A amount db).1 = false →
   customers (processDeposit env A amount db).2 = customers db ∧
   length (transactions (processDeposit env A amount db).2) =
     S (length (transactions db))) ∧
  (Result.success (processWithdrawal env A amount db).1 = false →
   customers (processWithdrawal env A amount db).2 = customers db ∧
   length (transactions (processWithdrawal env A amount db).2) =
     S (length (transactions db))) ∧
  (Result.success (processTransfer env A B amount db).1 = false →
   customers (processTransfer env A B amount db).2 = customers db ∧
   length (transactions (processTransfer env A B amount db).2) =
     S (length (transactions db))).
Proof.
  split_and!; intros Hfail; split.
  - by apply processDeposit_failure.
  - apply processDeposit_appends_one.
  - by apply processWithdrawal_failure.
  - apply processWithdrawal_appends_one.
  - by apply processTransfer_failure.
  - apply processTransfer_appends_one.
Qed.

Lemma X5_failure_changes_no_balance_witness :
  let env := mkEnv "3f0c" 1700000000000 in
  Result.success (processDeposit env "99999" 10 (seed 0)).1 = false ∧
  customers (processDeposit env "99999" 10 (seed 0)).2 = customers (seed 0) ∧
  Result.success (processWithdrawal env "10001" 5001 (seed 0)).1 = false ∧
  customers (processWithdrawal env "10001" 5001 (seed 0)).2
    = customers (seed 0) ∧
  Result.success (processTransfer env "10001" "99999" 10 (seed 0)).1 = false ∧
  customers (processTransfer env "10001" "99999" 10 (seed 0)).2
    = customers (seed 0).
Proof.
  intros env.
  destruct (X5_failure_changes_no_balance env "99999" "99999" 10 (seed 0))
    as (Hd & _ & _).
  destruct (X5_failure_changes_no_balance env "10001" "99999" 5001 (seed 0))
    as (_ & Hw & _).
  destruct (X5_failure_changes_no_balance env "10001" "99999" 10 (seed 0))
    as (_ & _ & Ht).
  assert (Result.success (processDeposit env "99999" 10 (seed 0)).1 = false)
    as H1 by by vm_compute.
  assert (Result.success (processWithdrawal env "10001" 5001 (seed 0)).1
          = false) as H2 by by vm_compute.
  assert (Result.success (processTransfer env "10001" "99999" 10 (seed 0)).1
          = false) as H3 by by vm_compute.
  split; [exact H1|]. split; [exact (proj1 (Hd H1))|].
  split; [exact H2|]. split; [exact (proj1 (Hw H2))|].
  split; [exact H3|]. exact (proj1 (Ht H3)).
Defined.






(** ** The transaction log *)

Section log_primitives.
Implicit Types (db : Db) (env : Env) (ts : list Transaction.t).

Lemma list_find_id_set_status k s i ts :
  list_find (has_id k) (alter (Transaction.set_status s) i ts) =
  (λ p, (p.1, if decide (p.1 = i) then Transaction.set_status s p.2 else p.2))
    <$> list_find (has_id k) ts.
Proof.
  unfold has_id. revert i.
  induction ts as [|y ts IH]; intros i; [done|].
  destruct i as [|i]; cbn.
  - destruct (decide (Transaction.id y = k)); [done|].
    destruct (list_find _ ts) as [[j z]|]; by cbn.
  - destruct (decide (Transaction.id y = k)); [done|].
    rewrite IH. destruct (list_find _ ts) as [[j z]|]; cbn; [|done].
    destruct (decide (j = i)) as [->|Hne].
    + by rewrite decide_True.
    + by rewrite decide_False by lia.
Qed.

Lemma getTransactionById_snoc k ts x db :
  getTransactionById k (set_transactions (ts ++ [x]) db) =
  match getTransactionById k (set_transactions ts db) with
  | Some y => Some y
  | None => if decide (Transaction.id x = k) then Some x else None
  end.
Proof.
  unfold getTransactionById; cbn.
  destruct (list_find (has_id k) ts) as [[i y]|] eqn:Hf; cbn.
  - by rewrite (list_find_app_l _ _ _ _ _ Hf).
  - rewrite list_find_app_r by done. cbn. unfold has_id.
    by destruct (decide (Transaction.id x = k)).
Qed.

Lemma getTransactionById_ext k db db' :
  transactions db = transactions db' →
  getTransactionById k db = getTransactionById k db'.
Proof. unfold getTransactionById. by intros ->. Qed.

Lemma fresh_getTransactionById env db :
  fresh env db ↔ getTransactionById (uuidv4 env) db = None.
Proof.
  unfold fresh, getTransactionById. by rewrite fmap_None, list_find_None.
Qed.

Lemma unsettled_alter s i ts :
  unsettled <$> alter (Transaction.set_status s) i ts = unsettled <$> ts.
Proof.
  revert i. induction ts as [|y ts IH]; intros [|i]; cbn; [done..|].
  by rewrite IH.
Qed.
End log_primitives.

(** X8. [createTransaction] pushes one record and returns a reference to it;
    the record gets status [pending] unless the caller supplied one.  When
    the generated id is new to the log, [getTransactionById] with that id
    returns the new record; when an older record already carries the id, the
    lookup keeps returning the older one.  Looking up any other id gives what
    it gave before, [totalTransactions] has grown by one, and the customer
    table is untouched. *)
Theorem X8_createTransaction_then_lookup env f db :
  let out := createTransaction env f db in
  deref out.1 out.2 = Some (newTransaction env f) ∧
  transactions out.2 = transactions db ++ [newTransaction env f] ∧
  (Fields.status f = None →
   Transaction.status (newTransaction env f) = "pending") ∧
  (fresh env db →
   getTransactionById (uuidv4 env) out.2 = Some (newTransaction env f)) ∧
  (∀ y, getTransactionById (uuidv4 env) db = Some y →
        getTransactionById (uuidv4 env) out.2 = Some y) ∧
  (∀ k, k ≠ uuidv4 env →
        getTransactionById k out.2 = getTransactionById k db) ∧
  totalTransactions (analytics out.2) = totalTransactions (analytics db) + 1 ∧
  customers out.2 = customers db.
Proof.
  cbn zeta. rewrite createTransaction_eq. cbn [fst snd].
  assert (∀ k, getTransactionById k
      (mkDb (customers db) (transactions db ++ [newTransaction env f])
         (sessions db) (bump_analytics f (analytics db))) =
    match getTransactionById k db with
    | Some y => Some y
    | None => if decide (uuidv4 env = k) then Some (newTransaction env f)
              else None
    end) as Hlookup.
  { intros k.
    rewrite <- (getTransactionById_ext k
      (set_transactions (transactions db ++ [newTransaction env f]) db))
      by done.
    rewrite getTransactionById_snoc.
    by rewrite (getTransactionById_ext k (set_transactions _ db) db). }
  split_and!.
  - unfold deref; cbn. by rewrite list_lookup_middle.
  - done.
  - intros E. cbn. by rewrite E.
  - intros Hfresh%fresh_getTransactionById.
    by rewrite Hlookup, Hfresh, decide_True.
  - intros y Hy. by rewrite Hlookup, Hy.
  - intros k Hk. rewrite Hlookup.
    destruct (getTransactionById k db); [done|].
    by rewrite decide_False.
  - unfold bump_analytics. by repeat case_decide.
  - done.
Qed.

Lemma X8_createTransaction_then_lookup_witness :
  let f := Fields.mk "10001" None "deposit" 25 None None in
  (let env := mkEnv "3f0c" 1700000000000 in
   Fields.status f = None ∧ fresh env (seed 0) ∧
   getTransactionById "3f0c" (createTransaction env f (seed 0)).2
     = Some (newTransaction env f) ∧
   Transaction.status (newTransaction env f) = "pending") ∧
  (let env := mkEnv "t2" 1700000000000 in
   ∃ y, getTransactionById "t2" (seed 0) = Some y ∧
        getTransactionById "t2" (createTransaction env f (seed 0)).2
          = Some y).
Proof.
  intros f. split.
  - intros env.
    assert (fresh env (seed 0)) as Hfresh
      by (vm_compute; repeat constructor; by intros [=]).
    destruct (X8_createTransaction_then_lookup env f (seed 0))
      as (_ & _ & Hst & Hnew & _).
    split; [done|]. split; [exact Hfresh|].
    split; [by apply Hnew|by apply Hst].
  - intros env. eexists. split; [by vm_compute|].
    destruct (X8_createTransaction_then_lookup env f (seed 0))
      as (_ & _ & _ & _ & Hold & _).
    apply Hold. by vm_compute.
Defined.

(** X9. [updateTransactionStatus] with an id that no record carries returns
    [null] and leaves the state as it was.  Otherwise it returns the first
    record with that id and sets its status: a later lookup of the id gives
    that record with the new status, lookups of other ids are unaffected, no
    field other than a status has changed anywhere in the log, and customers,
    sessions and analytics are untouched. *)
Theorem X9_updateTransactionStatus_contract id s db :
  let out := updateTransactionStatus id s db in
  (getTransactionById id db = None → out = (None, db)) ∧
  (∀ y, getTransactionById id db = Some y →
        (∃ r, out.1 = Some r ∧ deref r db = Some y ∧
              deref r out.2 = Some (Transaction.set_status s y)) ∧
        getTransactionById id out.2 = Some (Transaction.set_status s y) ∧
        (∀ k, k ≠ id → getTransactionById k out.2 = getTransactionById k db) ∧
        unsettled <$> transactions out.2 = unsettled <$> transactions db ∧
        length (transactions out.2) = length (transactions db) ∧
        customers out.2 = customers db ∧
        sessions out.2 = sessions db ∧
        analytics out.2 = analytics db).
Proof.
  cbn zeta. unfold getTransactionById at 1 2, updateTransactionStatus.
  destruct (list_find (has_id id) (transactions db)) as [[i y0]|] eqn:Hf;
    cbn [fmap option_fmap option_map snd fst].
  - split; [done|]. intros y [= <-].
    pose proof Hf as (Hi & Hid & _)%list_find_Some.
    split_and!; try done.
    + exists i. unfold deref; cbn.
      rewrite list_lookup_alter_eq, Hi. by split_and!.
    + unfold getTransactionById; cbn.
      by rewrite list_find_id_set_status, Hf; cbn; rewrite decide_True.
    + intros k Hk. unfold getTransactionById; cbn.
      rewrite list_find_id_set_status.
      destruct (list_find (has_id k) (transactions db)) as [[j z]|] eqn:Hk';
        cbn; [|done].
      apply list_find_Some in Hk' as (Hj & Hz & _).
      case_decide as Hji; [|done]. subst j.
      rewrite Hi in Hj. injection Hj as <-. unfold has_id in *. congruence.
    + cbn. apply unsettled_alter.
    + cbn. apply length_alter.
  - split; [done|]. by intros y.
Qed.

Lemma X9_updateTransactionStatus_contract_witness :
  getTransactionById "zzzz" (seed 0) = None ∧
  updateTransactionStatus "zzzz" "failed" (seed 0) = (None, seed 0) ∧
  (∃ y, getTransactionById "t2" (seed 0) = Some y ∧
        getTransactionById "t2"
          (updateTransactionStatus "t2" "failed" (seed 0)).2
          = Some (Transaction.set_status "failed" y)).
Proof.
  assert (getTransactionById "zzzz" (seed 0) = None) as Hnone by by vm_compute.
  split; [exact Hnone|]. split.
  { by apply (X9_updateTransactionStatus_contract "zzzz" "failed" (seed 0)). }
  eexists. split; [by vm_compute|].
  destruct (X9_updateTransactionStatus_contract "t2" "failed" (seed 0))
    as [_ H].
  edestruct H as (_ & Hnew & _); [by vm_compute|]. exact Hnew.
Defined.

(** X10. The status of a record is not protected once set: a second
    [updateTransactionStatus] on the same id overwrites the first, final
    statuses included, so two updates in a row have the effect and the
    result of the last one alone. *)
Theorem X10_status_last_write_wins id s1 s2 db :
  updateTransactionStatus id s2 (updateTransactionStatus id s1 db).2 =
  updateTransactionStatus id s2 db.
Proof.
  unfold updateTransactionStatus at 2.
  destruct (list_find (has_id id) (transactions db)) as [[i y]|] eqn:Hf;
    [|done].
  cbn [snd]. unfold updateTransactionStatus. cbn [transactions set_transactions].
  rewrite list_find_id_set_status, Hf.
  cbn [fmap option_fmap option_map fst snd].
  unfold set_transactions.
  cbn [customers sessions analytics]. by rewrite list_alter_alter_eq.
Qed.

(** ** Invariants of every sequence of operations *)

Section run_invariants.
Variable I : Db → Prop.

(** The writes the engine performs: records built from its own object
    literals, balance adjustments, and final statuses. *)
Hypothesis create_ok :
  ∀ env f, engine_fields f → preserves I (createTransaction env f).
Hypothesis balance_ok : ∀ n x, preserves I (updateCustomerBalance n x).
Hypothesis status_ok :
  ∀ id s, final_status s → preserves I (updateTransactionStatus id s).
Hypothesis session_ok : ∀ i b, preserves I (trackSession i b).

Ltac keep :=
  repeat first
    [ apply preserves_ret | apply preserves_gets
    | apply create_ok; unfold engine_fields; cbn; tauto
    | apply balance_ok
    | apply status_ok; unfold final_status; tauto
    | apply preserves_bind; [|intros ?]
    | match goal with
      | |- preserves _ (if ?b then _ else _) => destruct b
      | |- preserves _ (match ?o with Some _ => _ | None => _ end) =>
          destruct o
      end ].

Lemma processDeposit_keeps env n x : preserves I (processDeposit env n x).
Proof. unfold processDeposit. keep. Qed.

Lemma processWithdrawal_keeps env n x :
  preserves I (processWithdrawal env n x).
Proof. unfold processWithdrawal. keep. Qed.

Lemma processTransfer_keeps env s d x :
  preserves I (processTransfer env s d x).
Proof. unfold processTransfer. keep. Qed.

Lemma step_keeps db o : I db → I (step db o).
Proof.
  destruct o; cbn [step].
  - apply processDeposit_keeps.
  - apply processWithdrawal_keeps.
  - apply processTransfer_keeps.
  - apply session_ok.
Qed.

Lemma run_keeps ops db : I db → I (run ops db).
Proof.
  unfold run. revert db.
  induction ops as [|o ops IH]; intros db H; cbn; [done|].
  by apply IH, step_keeps.
Qed.
End run_invariants.

Section counting.
Implicit Types (db : Db) (ts : list Transaction.t).

Lemma step_log_length db o :
  length (transactions (step db o)) =
  (length (transactions db) + if is_engine_op o then 1 else 0)%nat.
Proof.
  destruct o; cbn [step is_engine_op].
  - rewrite processDeposit_appends_one. lia.
  - rewrite processWithdrawal_appends_one. lia.
  - rewrite processTransfer_appends_one. lia.
  - unfold trackSession. destruct active; cbn; [lia|]. case_decide; cbn; lia.
Qed.

Lemma run_log_length ops db :
  length (transactions (run ops db)) =
  (length (transactions db) + engine_ops ops)%nat.
Proof.
  unfold run, engine_ops. revert db.
  induction ops as [|o ops IH]; intros db; cbn [foldl]; [cbn; lia|].
  rewrite IH, step_log_length, filter_cons.
  destruct (is_engine_op o); [rewrite decide_True by done|
                              rewrite decide_False by done];
    cbn [length]; lia.
Qed.

Lemma counter_matches_log_run ops db :
  counter_matches_log db → counter_matches_log (run ops db).
Proof.
  apply run_keeps; unfold counter_matches_log.
  - intros env f _ d H. rewrite createTransaction_eq. cbn.
    rewrite length_app. cbn.
    unfold bump_analytics. repeat case_decide; cbn; lia.
  - intros n x d H.
    by destruct (updateCustomerBalance_frame n x d) as (-> & _ & ->).
  - intros id s _ d H.
    by destruct (updateTransactionStatus_frame id s d) as (_ & _ & -> & ->).
  - intros i b d H. unfold trackSession. destruct b; cbn; [done|].
    by case_decide.
Qed.

Lemma known_status_run ops db :
  Forall known_status (transactions db) →
  Forall known_status (transactions (run ops db)).
Proof.
  apply (run_keeps (λ d, Forall known_status (transactions d))).
  - intros env f [_ Hst] d H. rewrite createTransaction_eq. cbn.
    apply Forall_app. split; [done|]. constructor; [|done].
    unfold known_status; cbn. destruct Hst as [-> | ->]; cbn; auto.
  - intros n x d H.
    by destruct (updateCustomerBalance_frame n x d) as (-> & _).
  - intros id s Hs d H. unfold updateTransactionStatus.
    destruct (list_find _ _) as [[i y]|]; cbn; [|done].
    apply Forall_alter; [done|]. intros y' _ _. unfold known_status; cbn.
    destruct Hs as [-> | ->]; auto.
  - intros i b d H. unfold trackSession. destruct b; cbn; [done|].
    by case_decide.
Qed.

Lemma known_type_run ops db :
  Forall known_type (transactions db) →
  Forall known_type (transactions (run ops db)).
Proof.
  apply (run_keeps (λ d, Forall known_type (transactions d))).
  - intros env f [Hty _] d H. rewrite createTransaction_eq. cbn.
    apply Forall_app. split; [done|]. by constructor.
  - intros n x d H.
    by destruct (updateCustomerBalance_frame n x d) as (-> & _).
  - intros id s _ d H. unfold updateTransactionStatus.
    destruct (list_find _ _) as [[i y]|]; cbn; [|done].
    apply Forall_alter; [done|]. by intros y' _ ?.
  - intros i b d H. unfold trackSession. destruct b; cbn; [done|].
    by case_decide.
Qed.

Lemma status_counts_partition ts :
  Forall known_status ts →
  (length (filter (λ x, Transaction.status x = "completed") ts) +
   length (filter (λ x, Transaction.status x = "pending") ts) +
   length (filter (λ x, Transaction.status x = "failed") ts))%nat = length ts.
Proof.
  induction 1 as [|x ts Hx _ IH]; [done|].
  rewrite !filter_cons. cbn [length]. rewrite <- IH.
  destruct Hx as [E|[E|E]]; rewrite E;
    repeat case_decide; try discriminate; try done; cbn [length]; lia.
Qed.

Lemma types_partition ts :
  Forall known_type ts →
  filter (λ x, Transaction.type x = "deposit") ts ++
  filter (λ x, Transaction.type x = "withdrawal") ts ++
  filter (λ x, Transaction.type x = "transfer") ts ≡ₚ ts.
Proof.
  induction 1 as [|x ts Hx _ IH]; [done|].
  rewrite !filter_cons.
  destruct Hx as [E|[E|E]]; rewrite E;
    repeat case_decide; try discriminate; try done.
  - cbn. by rewrite IH.
  - cbn [app]. rewrite <- Permutation_middle. by rewrite IH.
  - rewrite app_assoc, <- Permutation_middle, <- app_assoc. by rewrite IH.
Qed.
End counting.

(** X11. After every sequence of operations from the seeded state the
    counter [totalTransactions] kept by [createTransaction], the [totalCount]
    computed by [getTransactionSummary] and the length of the log agree, and
    they equal 3 plus the number of deposits, withdrawals and transfers in
    the sequence: each engine call pushes exactly one record, session
    tracking none. *)
Theorem X11_transaction_count startup ops :
  let db := run ops (seed startup) in
  totalTransactions (getAnalytics db) =
    Summary.totalCount (getTransactionSummary db) ∧
  Summary.totalCount (getTransactionSummary db) =
    Z.of_nat (length (getTransactions db)) ∧
  length (getTransactions db) = (3 + engine_ops ops)%nat.
Proof.
  cbn zeta. unfold getAnalytics, getTransactions. cbn. split_and!.
  - by apply (counter_matches_log_run ops (seed startup)).
  - done.
  - by rewrite run_log_length.
Qed.

(** X12. After every sequence of operations from the seeded state every
    record of the log has status [completed], [pending] or [failed], so the
    three status counts of [getTransactionSummary] add up to its
    [totalCount]. *)
Theorem X12_status_counts_add_up startup ops :
  let summary := getTransactionSummary (run ops (seed startup)) in
  Summary.completedCount summary + Summary.pendingCount summary +
  Summary.failedCount summary = Summary.totalCount summary.
Proof.
  cbn zeta. cbn. unfold count_status.
  rewrite <- (status_counts_partition (transactions (run ops (seed startup)))).
  - lia.
  - apply known_status_run. cbn.
    repeat (constructor; [unfold known_status; cbn; tauto|]). constructor.
Qed.

(** X13. After every sequence of operations from the seeded state every
    record of the log is a deposit, a withdrawal or a transfer, so the three
    lists of [getTransactionsByType] together hold each record of the log
    exactly once, and each list keeps the order of the log. *)
Theorem X13_by_type_partitions_log startup ops :
  let db := run ops (seed startup) in
  let by_type := getTransactionsByType db in
  ByType.deposits by_type ++ ByType.withdrawals by_type ++
    ByType.transfers by_type ≡ₚ transactions db ∧
  ByType.deposits by_type `sublist_of` transactions db ∧
  ByType.withdrawals by_type `sublist_of` transactions db ∧
  ByType.transfers by_type `sublist_of` transactions db.
Proof.
  cbn zeta. cbn. split_and!; [|apply sublist_filter..].
  apply types_partition, known_type_run. cbn.
  repeat (constructor; [unfold known_type; cbn; tauto|]). constructor.
Qed.

Section never_changes.
Implicit Types (db : Db) (ops : list Op).

Lemma account_known n db :
  is_Some (getCustomerByAccountNumber n db) ↔
  n ∈ (λ p, p.2) <$> (identity <$> customers db).
Proof.
  unfold getCustomerByAccountNumber.
  rewrite fmap_is_Some, <- list_fmap_compose, list_elem_of_fmap. split.
  - intros [[i c] (Hi & Hn & _)%list_find_Some].
    exists c. split; [done|]. by eapply list_elem_of_lookup_2.
  - intros (c & Hn & Hc). by eapply list_find_elem_of.
Qed.

Lemma identity_run ops db :
  identity <$> customers (run ops db) = identity <$> customers db.
Proof.
  apply (run_keeps
    (λ d, identity <$> customers d = identity <$> customers db)); try done.
  - intros env f _ d H. exact H.
  - intros n x d H. cbn beta in *. by rewrite updateCustomerBalance_identity.
  - intros id s _ d H. cbn beta in *.
    by destruct (updateTransactionStatus_frame id s d) as (-> & _).
  - intros i b d H. cbn beta in *. unfold trackSession. destruct b; cbn; [done|].
    by case_decide.
Qed.

Lemma unsettled_run ops db :
  unsettled <$> transactions db `prefix_of`
  unsettled <$> transactions (run ops db).
Proof.
  apply (run_keeps
    (λ d, unsettled <$> transactions db `prefix_of`
          unsettled <$> transactions d)); try done.
  - intros env f _ d H. cbn beta in *. rewrite createTransaction_eq. cbn.
    rewrite fmap_app. by apply prefix_app_r.
  - intros n x d H. cbn beta in *.
    by destruct (updateCustomerBalance_frame n x d) as (-> & _).
  - intros id s _ d H. cbn beta in *. unfold updateTransactionStatus.
    destruct (list_find _ _) as [[i y]|]; cbn; [|done].
    by rewrite unsettled_alter.
  - intros i b d H. cbn beta in *. unfold trackSession. destruct b; cbn; [done|].
    by case_decide.
Qed.

Lemma engine_step_sessions db o :
  is_engine_op o = true →
  sessions (step db o) = sessions db ∧
  activeSessions (analytics (step db o)) = activeSessions (analytics db).
Proof.
  assert (∀ env f, preserves
    (λ d, sessions d = sessions db ∧
          activeSessions (analytics d) = activeSessions (analytics db))
    (createTransaction env f)) as Hc.
  { intros env f d [H1 H2]. rewrite createTransaction_eq. cbn.
    split; [done|]. unfold bump_analytics. by repeat case_decide. }
  assert (∀ n x, preserves
    (λ d, sessions d = sessions db ∧
          activeSessions (analytics d) = activeSessions (analytics db))
    (updateCustomerBalance n x)) as Hb.
  { intros n x d H.
    by destruct (updateCustomerBalance_frame n x d) as (_ & -> & ->). }
  assert (∀ id s, preserves
    (λ d, sessions d = sessions db ∧
          activeSessions (analytics d) = activeSessions (analytics db))
    (updateTransactionStatus id s)) as Hs.
  { intros id s d H.
    by destruct (updateTransactionStatus_frame id s d) as (_ & -> & -> & _). }
  destruct o; cbn [is_engine_op step]; intros ?; [| | |done].
  - by apply processDeposit_preserves.
  - by apply processWithdrawal_preserves.
  - by apply processTransfer_preserves.
Qed.

Lemma trackSession_sessions_ext i b db db' :
  sessions db = sessions db' →
  sessions (trackSession i b db).2 = sessions (trackSession i b db').2.
Proof.
  intros E. unfold trackSession. destruct b; cbn; rewrite E; [done|].
  by case_decide.
Qed.

Lemma sessions_run_ext ops db db' :
  sessions db = sessions db' →
  sessions (run ops db) =
  sessions (run (filter (λ o, is_engine_op o = false) ops) db').
Proof.
  unfold run. revert db db'.
  induction ops as [|o ops IH]; intros db db' E; [done|].
  rewrite filter_cons. cbn [foldl].
  destruct (is_engine_op o) eqn:Ho.
  - rewrite decide_False by done. apply IH.
    by destruct (engine_step_sessions db o Ho) as [-> _].
  - rewrite decide_True by done. cbn [foldl]. apply IH.
    destruct o; try done. cbn [step]. by apply trackSession_sessions_ext.
Qed.

Lemma gauge_run ops db :
  activeSessions (analytics db) = Z.of_nat (length (sessions db)) →
  activeSessions (analytics (run ops db)) =
    Z.of_nat (length (sessions (run ops db))).
Proof.
  unfold run. revert db.
  induction ops as [|o ops IH]; intros db H; [done|]. cbn [foldl]. apply IH.
  destruct (is_engine_op o) eqn:Ho.
  - by destruct (engine_step_sessions db o Ho) as [-> ->].
  - destruct o; try done. cbn [step]. unfold trackSession.
    destruct active; cbn; [done|]. by case_decide.
Qed.
End never_changes.

(** X14. No sequence of operations, from any state, adds, removes, reorders
    or renames a customer: the id, name, email and account number of every
    row stay as they were, only balances move.  An account number therefore
    resolves after the sequence exactly when it resolved before; from the
    seeded state the accounts are 10001, 10002 and 10003 for ever. *)
Theorem X14_customers_are_fixed ops db startup :
  identity <$> getCustomers (run ops db) = identity <$> getCustomers db ∧
  length (getCustomers (run ops db)) = length (getCustomers db) ∧
  (∀ n, is_Some (getCustomerByAccountNumber n (run ops db)) ↔
        is_Some (getCustomerByAccountNumber n db)) ∧
  (∀ n, is_Some (getCustomerByAccountNumber n (run ops (seed startup))) ↔
        n ∈ ["10001"; "10002"; "10003"]).
Proof.
  unfold getCustomers. pose proof (identity_run ops db) as Hid. split_and!.
  - done.
  - by rewrite <- (length_fmap identity), Hid, length_fmap.
  - intros n. by rewrite !account_known, Hid.
  - intros n. by rewrite account_known, identity_run.
Qed.

(** X15. The log is append-only: after any sequence of operations, from any
    state, the records that were in the log are still there, in the same
    positions and with every field but the status unchanged; new records
    only come after them. *)
Theorem X15_log_is_append_only ops db :
  unsettled <$> getTransactions db `prefix_of`
  unsettled <$> getTransactions (run ops db).
Proof. apply unsettled_run. Qed.

(** X16. The session list is moved by [trackSession] alone: deposits,
    withdrawals and transfers leave it and the [activeSessions] counter as
    they are, so the list after a sequence of operations is the one the
    [trackSession] calls of the sequence produce on their own.  From the
    seeded state the counter always equals the length of the list. *)
Theorem X16_sessions_follow_trackSession_only startup ops db :
  sessions (run ops db) =
    sessions (run (filter (λ o, is_engine_op o = false) ops) db) ∧
  activeSessions (getAnalytics (run ops (seed startup))) =
    Z.of_nat (length (sessions (run ops (seed startup)))).
Proof.
  split; [by apply sessions_run_ext|].
  unfold getAnalytics. by apply gauge_run.
Qed.

(** ** Sequences in which every generated id is new *)

Section supplied_runs.
Implicit Types (db : Db) (ops : list Op) (ts : list Transaction.t).

Lemma trackSession_frame i b db :
  customers (trackSession i b db).2 = customers db ∧
  transactions (trackSession i b db).2 = transactions db.
Proof. unfold trackSession. destruct b; cbn; [done|]. by case_decide. Qed.

Lemma step_fresh db o :
  op_fresh o db →
  transactions (step db o) = transactions db ++ op_record db o.
Proof.
  destruct o; cbn [op_fresh step op_record]; intros Hfresh.
  - by destruct (processDeposit_log env accountNumber amount db Hfresh).
  - by destruct (processWithdrawal_log env accountNumber amount db Hfresh).
  - by destruct (processTransfer_log env sourceAccount destinationAccount
                   amount db Hfresh).
  - destruct (trackSession_frame sessionId active db) as [_ ->].
    by rewrite app_nil_r.
Qed.

Lemma run_supplied_ind (P : Db → Prop) :
  (∀ db o, P db → op_fresh o db → P (step db o)) →
  ∀ ops db, P db → well_supplied ops db → P (run ops db).
Proof.
  intros Hstep ops. unfold run.
  induction ops as [|o ops IH]; intros db HP Hw; [done|].
  destruct Hw as [Ho Hw]. cbn [foldl]. apply IH; [|done]. by apply Hstep.
Qed.

Lemma op_record_final db o :
  Forall (λ x, final_status (Transaction.status x)) (op_record db o).
Proof.
  destruct o; cbn [op_record]; [| | |constructor];
    (constructor; [|constructor]); unfold final_status, logged; cbn;
    match goal with |- context [Result.success ?r] =>
      destruct (Result.success r) end; auto.
Qed.




Lemma step_nonnegative db o :
  match o with
  | Deposit _ _ x | Transfer _ _ _ x => 0 ≤ x
  | Withdrawal _ _ _ | TrackSession _ _ => True
  end →
  all_nonnegative db → all_nonnegative (step db o).
Proof.
  intros Hx Hall m bm. destruct o; cbn [step].
  - destruct (getCustomerBalance accountNumber db) as [b|] eqn:Hb.
    + destruct (processDeposit_settles env accountNumber amount db b Hb)
        as (db2 & -> & _ & _ & Hbal & _).
      cbn [snd].
      rewrite (getCustomerBalance_ext m _ db2) by apply settled_customers.
      rewrite Hbal. case_decide.
      * intros [= <-]. specialize (Hall _ _ Hb). lia.
      * apply Hall.
    + rewrite (getCustomerBalance_ext m _ db); [apply Hall|].
      apply processDeposit_failure.
      by rewrite processDeposit_success, Hb.
  - destruct (Result.success (processWithdrawal env accountNumber amount db).1)
      eqn:Hok.
    + rewrite processWithdrawal_success in Hok.
      apply negb_true_iff, insufficient_false in Hok as (b & Hb & Hle).
      destruct (processWithdrawal_settles env accountNumber amount db b Hb Hle)
        as (db2 & -> & _ & _ & Hbal & _).
      cbn [snd].
      rewrite (getCustomerBalance_ext m _ db2) by apply settled_customers.
      rewrite Hbal. case_decide.
      * intros [= <-]. lia.
      * apply Hall.
    + rewrite (getCustomerBalance_ext m _ db); [apply Hall|].
      by apply processWithdrawal_failure.
  - destruct (Result.success
                (processTransfer env sourceAccount destinationAccount amount
                   db).1) eqn:Hok.
    + apply processTransfer_success in Hok as (bs & bd & Hs & Hle & Hd).
      destruct (processTransfer_settles env sourceAccount destinationAccount
                  amount db bs bd Hs Hle Hd)
        as (db2 & -> & _ & _ & Hbal & _).
      cbn [snd].
      rewrite (getCustomerBalance_ext m _ db2) by apply settled_customers.
      rewrite Hbal. pose proof (Hall _ _ Hs). pose proof (Hall _ _ Hd).
      repeat case_decide; first [by apply Hall | intros [= <-]; lia].
    + rewrite (getCustomerBalance_ext m _ db); [apply Hall|].
      by apply processTransfer_failure.
  - rewrite (getCustomerBalance_ext m _ db); [apply Hall|].
    apply trackSession_frame.
Qed.
End supplied_runs.

(** X17. In a sequence of operations in which every generated id is new to
    the log it meets, no operation touches a record that was already in the
    log: the old log is a prefix of the new one.  From the seeded state every
    record then has a final status, so [pendingCount] is 0 and the completed
    and failed counts add up to [totalCount]. *)
Theorem X17_supplied_runs_settle_every_record startup ops db :
  (well_supplied ops db →
   transactions db `prefix_of` transactions (run ops db)) ∧
  (well_supplied ops (seed startup) →
   let summary := getTransactionSummary (run ops (seed startup)) in
   Summary.pendingCount summary = 0 ∧
   Summary.completedCount summary + Summary.failedCount summary =
     Summary.totalCount summary).
Proof.
  split.
  - apply (run_supplied_ind (λ d, transactions db `prefix_of` transactions d));
      [|done].
    intros d o Hd Ho. rewrite (step_fresh d o Ho). by apply prefix_app_r.
  - intros Hw.
    assert (Forall (λ x, final_status (Transaction.status x))
              (transactions (run ops (seed startup)))) as Hfinal.
    { revert Hw. apply (run_supplied_ind
        (λ d, Forall (λ x, final_status (Transaction.status x))
                (transactions d))).
      - intros d o Hd Ho. rewrite (step_fresh d o Ho).
        apply Forall_app. split; [done|]. apply op_record_final.
      - cbn. repeat (constructor; [unfold final_status; cbn; tauto|]).
        constructor. }
    cbn zeta. cbn. unfold count_status.
    induction Hfinal as [|x l Hx _ IH]; [done|].
    rewrite !filter_cons. cbn [length].
    destruct Hx as [E|E]; rewrite E;
      repeat case_decide; try discriminate; try done; cbn [length]; lia.
Qed.

Lemma X17_supplied_runs_settle_every_record_witness :
  let ops := [Deposit (mkEnv "a1" 1) "10001" 50;
              Withdrawal (mkEnv "a2" 2) "10002" 9000;
              Transfer (mkEnv "a3" 3) "10003" "10001" 700] in
  well_supplied ops (seed 0) ∧
  transactions (seed 0) `prefix_of` transactions (run ops (seed 0)) ∧
  Summary.pendingCount (getTransactionSummary (run ops (seed 0))) = 0.
Proof.
  intros ops.
  assert (well_supplied ops (seed 0)) as Hw.
  { vm_compute. repeat split; repeat constructor; by intros [=]. }
  split; [exact Hw|].
  destruct (X17_supplied_runs_settle_every_record 0 ops (seed 0))
    as [Hprefix Hfinal].
  split; [by apply Hprefix|]. by destruct (Hfinal Hw).
Defined.




(** X19. No overdraft: in every sequence of operations from the seeded state
    whose deposits and transfers carry non-negative amounts (withdrawals may
    carry any amount, ids may repeat), every balance read by
    [getCustomerBalance] is non-negative at the end. *)
Theorem X19_balances_stay_nonnegative startup ops :
  credits_nonnegative ops →
  all_nonnegative (run ops (seed startup)).
Proof.
  assert (all_nonnegative (seed startup)) as Hseed.
  { intros n b. unfold getCustomerBalance; cbn.
    repeat case_decide; intros [= <-]; lia. }
  revert Hseed. unfold run. generalize (seed startup) as db.
  induction ops as [|o ops IH]; intros db Hdb Hops; [done|].
  apply Forall_cons in Hops as [Ho Hops]. cbn [foldl].
  apply IH; [|done]. by apply step_nonnegative.
Qed.

Lemma X19_balances_stay_nonnegative_witness :
  let ops := [Withdrawal (mkEnv "a1" 1) "10001" 5000;
              Transfer (mkEnv "a1" 2) "10001" "10002" 1;
              Withdrawal (mkEnv "a2" 3) "10002" (-5);
              Deposit (mkEnv "a3" 4) "10001" 0] in
  credits_nonnegative ops ∧
  getCustomerBalance "10001" (run ops (seed 0)) = Some 0 ∧
  all_nonnegative (run ops (seed 0)).
Proof.
  intros ops.
  assert (credits_nonnegative ops) as Hops.
  { unfold credits_nonnegative, ops. repeat constructor; lia. }
  split; [exact Hops|]. split; [by vm_compute|].
  by apply X19_balances_stay_nonnegative.
Defined.

(** ** A generated id that is already in the log *)

Section collisions.
Implicit Types (db : Db) (env : Env) (ts : list Transaction.t).

Lemma settle_collision k s db ts x y :
  transactions db = ts ++ [x] →
  getTransactionById k (set_transactions ts db) = Some y →
  status_of (length ts) (updateTransactionStatus k s db).2 =
    Some (Transaction.status x) ∧
  getTransactionById k (updateTransactionStatus k s db).2 =
    Some (Transaction.set_status s y).
Proof.
  intros E Hy. unfold getTransactionById in Hy; cbn in Hy.
  destruct (list_find (has_id k) ts) as [[i y0]|] eqn:Hf; simplify_eq/=.
  pose proof Hf as (Hi%lookup_lt_Some & _)%list_find_Some.
  unfold updateTransactionStatus. rewrite E.
  rewrite (list_find_app_l _ _ _ _ _ Hf). cbn [snd].
  rewrite alter_app_l by done. split.
  - unfold status_of, deref; cbn.
    rewrite list_lookup_middle by by rewrite length_alter. done.
  - unfold getTransactionById; cbn.
    erewrite list_find_app_l;
      [|by rewrite list_find_id_set_status, Hf; cbn; rewrite decide_True].
    done.
Qed.

Lemma not_fresh_found env db :
  ¬ fresh env db → ∃ y, getTransactionById (uuidv4 env) db = Some y.
Proof.
  rewrite fresh_getTransactionById.
  destruct (getTransactionById (uuidv4 env) db); [by eauto|done].
Qed.
End collisions.

(** X20. The engine finds the record it has just pushed by searching the log
    for the generated id.  If an older record already carries that id, the
    older record receives the final status and the new record is left
    [pending]: for a deposit in every case, for a withdrawal and a transfer
    whenever the call reports success. *)
Theorem X20_id_collision_misdirects_status env A B amount db :
  ¬ fresh env db →
  ∃ y, getTransactionById (uuidv4 env) db = Some y ∧
    (let out := processDeposit env A amount db in
     status_of (Result.transaction out.1) out.2 = Some "pending" ∧
     getTransactionById (uuidv4 env) out.2 =
       Some (Transaction.set_status
               (if Result.success out.1 then "completed" else "failed") y)) ∧
    (let out := processWithdrawal env A amount db in
     Result.success out.1 = true →
     status_of (Result.transaction out.1) out.2 = Some "pending" ∧
     getTransactionById (uuidv4 env) out.2 =
       Some (Transaction.set_status "completed" y)) ∧
    (let out := processTransfer env A B amount db in
     Result.success out.1 = true →
     status_of (Result.transaction out.1) out.2 = Some "pending" ∧
     getTransactionById (uuidv4 env) out.2 =
       Some (Transaction.set_status "completed" y)).
Proof.
  intros [y Hy]%not_fresh_found. exists y. split; [done|].
  assert (getTransactionById (uuidv4 env)
            (set_transactions (transactions db) db) = Some y) as Hy'.
  { by rewrite (getTransactionById_ext _ _ db). }
  split_and!; cbn zeta.
  - rewrite processDeposit_eq. cbn zeta. cbn [fst snd Result.transaction
      Result.success].
    match goal with |- context [updateTransactionStatus _ ?s ?d] =>
      destruct (settle_collision (uuidv4 env) s d (transactions db)
                  (newTransaction env (deposit_fields A amount)) y)
        as [H1 H2]; [|done|by split] end.
    by destruct (updateCustomerBalance_frame A amount
      (createTransaction env (deposit_fields A amount) db).2) as (-> & _).
  - rewrite processWithdrawal_success.
    intros (b & Hb & Hle)%negb_true_iff%insufficient_false.
    destruct (processWithdrawal_settles env A amount db b Hb Hle)
      as (db2 & -> & Ht & _).
    cbn [fst snd Result.transaction].
    by destruct (settle_collision (uuidv4 env) "completed" db2 _ _ y Ht Hy').
  - intros (bs & bd & Hs & Hle & Hd)%processTransfer_success.
    destruct (processTransfer_settles env A B amount db bs bd Hs Hle Hd)
      as (db2 & -> & Ht & _).
    cbn [fst snd Result.transaction].
    by destruct (settle_collision (uuidv4 env) "completed" db2 _ _ y Ht Hy').
Qed.

Lemma X20_id_collision_misdirects_status_witness :
  let env := mkEnv "t2" 1700000000000 in
  let out := processWithdrawal env "10001" 20 (seed 0) in
  ¬ fresh env (seed 0) ∧
  Result.success out.1 = true ∧
  status_of (Result.transaction out.1) out.2 = Some "pending".
Proof.
  intros env out.
  assert (¬ fresh env (seed 0)) as Hcol.
  { intros H. apply fresh_getTransactionById in H. by vm_compute in H. }
  assert (Result.success out.1 = true) as Hok by by vm_compute.
  split; [exact Hcol|]. split; [exact Hok|].
  destruct (X20_id_collision_misdirects_status env "10001" "10002" 20 (seed 0)
              Hcol) as (y & _ & _ & Hw & _).
  by destruct (Hw Hok).
Defined.

(** ** Sessions, histories and counts *)

Section sessions_and_counts.
Implicit Types (db : Db) (env : Env) (l : list string).

Lemma indexOf_first x l1 l2 :
  x ∉ l1 → indexOf x (l1 ++ x :: l2) = Z.of_nat (length l1).
Proof.
  induction l1 as [|y l1 IH]; cbn.
  - intros _. by rewrite decide_True.
  - intros [Hy Hl]%not_elem_of_cons.
    rewrite decide_False by done. rewrite (IH Hl).
    rewrite decide_False by lia. lia.
Qed.

Lemma untrack_first x db l1 l2 :
  sessions db = l1 ++ x :: l2 → x ∉ l1 →
  (trackSession x false db).1 = Z.of_nat (length l1 + length l2) ∧
  sessions (trackSession x false db).2 = l1 ++ l2.
Proof.
  intros E Hl1. unfold trackSession. rewrite E.
  rewrite (indexOf_first _ _ _ Hl1), decide_True by lia.
  cbn. rewrite Nat2Z.id, delete_middle. split; [|done].
  by rewrite length_app.
Qed.

Lemma count_status_logged s env n dst ty x r db db' :
  transactions db' = transactions db ++ [logged env n dst ty x r] →
  count_status s db' =
  count_status s db +
    (if decide ((if Result.success r then "completed" else "failed") = s)
     then 1 else 0).
Proof.
  intros E. unfold count_status. rewrite E, filter_app, length_app.
  rewrite filter_cons, filter_nil. unfold logged; cbn [Transaction.status].
  case_decide; cbn [length]; lia.
Qed.
End sessions_and_counts.

(** X21. Tracking a session and then untracking the same id brings the count
    back to what it was.  The list itself is restored when the id was not
    active before; when it was, the earlier occurrence is the one removed and
    the freshly tracked one stays at the end. *)
Theorem X21_track_then_untrack sessionId db :
  let out := trackSession sessionId false (trackSession sessionId true db).2 in
  out.1 = Z.of_nat (length (sessions db)) ∧
  (sessionId ∉ sessions db → sessions out.2 = sessions db) ∧
  (∀ l1 l2, sessions db = l1 ++ sessionId :: l2 → sessionId ∉ l1 →
            sessions out.2 = l1 ++ l2 ++ [sessionId]).
Proof.
  cbn zeta.
  assert (∀ l1 l2, sessions db ++ [sessionId] = l1 ++ sessionId :: l2 →
                   sessionId ∉ l1 →
    (trackSession sessionId false (trackSession sessionId true db).2).1 =
      Z.of_nat (length (sessions db)) ∧
    sessions (trackSession sessionId false
                (trackSession sessionId true db).2).2 = l1 ++ l2) as H.
  { intros l1 l2 E Hl1.
    destruct (untrack_first sessionId (trackSession sessionId true db).2 l1 l2)
      as [-> ->]; [exact E|done|]. split; [|done].
    apply (f_equal length) in E. rewrite !length_app in E. cbn in E. lia. }
  split_and!.
  - destruct (decide (sessionId ∈ sessions db)) as [Hin|Hout].
    + apply indexOf_present in Hin as (l1 & l2 & E & Hl1 & _).
      apply (H l1 (l2 ++ [sessionId])); [|done].
      by rewrite E, <- app_assoc.
    + by apply (H (sessions db) []).
  - intros Hout. destruct (H (sessions db) []) as [_ ->]; [done..|].
    by rewrite app_nil_r.
  - intros l1 l2 E Hl1.
    destruct (H l1 (l2 ++ [sessionId])) as [_ ->]; [|done..].
    by rewrite E, <- app_assoc.
Qed.

Lemma X21_track_then_untrack_witness :
  let db := (trackSession "s1" true (trackSession "s2" true (seed 0)).2).2 in
  ("s3" ∉ sessions db) ∧
  sessions (trackSession "s3" false (trackSession "s3" true db).2).2
    = sessions db ∧
  sessions db = ["s2"] ++ "s1" :: [] ∧
  sessions (trackSession "s1" false (trackSession "s1" true db).2).2
    = ["s2"; "s1"].
Proof.
  intros db.
  assert ("s3" ∉ sessions db) as Hout.
  { vm_compute. intros H. repeat (apply elem_of_cons in H as [[=]|H]).
    by apply elem_of_nil in H. }
  split; [exact Hout|]. split.
  { by apply (X21_track_then_untrack "s3" db). }
  split; [by vm_compute|].
  destruct (X21_track_then_untrack "s1" db) as (_ & _ & H).
  rewrite (H ["s2"] []); [done|by vm_compute|].
  intros [[=]|[]%elem_of_nil]%elem_of_cons.
Defined.

(** X22. With a generated id that is new to the log, a deposit, a withdrawal
    or an outgoing transfer adds exactly one entry, the record of the call,
    at the end of the history of the account it names as source, whether the
    call succeeds or fails and whether or not the account exists; the history
    of every other account number is unchanged. *)
Theorem X22_history_grows_by_the_call env A B amount db :
  fresh env db →
  (let out := processDeposit env A amount db in
   getTransactionsByAccountNumber A out.2 =
     getTransactionsByAccountNumber A db ++
       [logged env A None "deposit" amount out.1] ∧
   ∀ N, N ≠ A → getTransactionsByAccountNumber N out.2 =
                getTransactionsByAccountNumber N db) ∧
  (let out := processWithdrawal env A amount db in
   getTransactionsByAccountNumber A out.2 =
     getTransactionsByAccountNumber A db ++
       [logged env A None "withdrawal" amount out.1] ∧
   ∀ N, N ≠ A → getTransactionsByAccountNumber N out.2 =
                getTransactionsByAccountNumber N db) ∧
  (let out := processTransfer env A B amount db in
   getTransactionsByAccountNumber A out.2 =
     getTransactionsByAccountNumber A db ++
       [logged env A (Some B) "transfer" amount out.1] ∧
   ∀ N, N ≠ A → getTransactionsByAccountNumber N out.2 =
                getTransactionsByAccountNumber N db).
Proof.
  intros Hfresh. unfold getTransactionsByAccountNumber. cbn zeta.
  destruct (processDeposit_log env A amount db Hfresh) as [_ ->].
  destruct (processWithdrawal_log env A amount db Hfresh) as [_ ->].
  destruct (processTransfer_log env A B amount db Hfresh) as [_ ->].
  rewrite !filter_app, !filter_cons, !filter_nil.
  unfold logged; cbn [Transaction.accountNumber].
  rewrite !decide_True by done.
  split_and!; try done; intros N HN; rewrite filter_app, filter_cons, filter_nil;
    cbn [Transaction.accountNumber]; rewrite decide_False by done;
    by rewrite app_nil_r.
Qed.

Lemma X22_history_grows_by_the_call_witness :
  let env := mkEnv "3f0c" 1700000000000 in
  fresh env (seed 0) ∧
  length (getTransactionsByAccountNumber "77777"
            (processWithdrawal env "77777" 5 (seed 0)).2) = 1%nat ∧
  length (getTransactionsByAccountNumber "10001"
            (processTransfer env "10001" "10002" 5 (seed 0)).2) = 3%nat.
Proof.
  intros env.
  assert (fresh env (seed 0)) as Hfresh
    by (vm_compute; repeat constructor; by intros [=]).
  split; [exact Hfresh|].
  destruct (X22_history_grows_by_the_call env "77777" "10002" 5 (seed 0)
              Hfresh) as (_ & [Hw _] & _).
  destruct (X22_history_grows_by_the_call env "10001" "10002" 5 (seed 0)
              Hfresh) as (_ & _ & [Ht _]).
  cbn zeta in Hw, Ht. rewrite Hw, Ht, !length_app. done.
Defined.

(** X23. With a generated id that is new to the log, each deposit, withdrawal
    or transfer raises exactly one status count of [getTransactionSummary] by
    one: [completedCount] when the call reports success, [failedCount] when
    it reports failure; [pendingCount] stays as it was and [totalCount] grows
    by one. *)
Theorem X23_each_call_counts_once env A B amount db :
  fresh env db →
  ∀ out, out = processDeposit env A amount db ∨
         out = processWithdrawal env A amount db ∨
         out = processTransfer env A B amount db →
  let before := getTransactionSummary db in
  let after := getTransactionSummary out.2 in
  Summary.completedCount after =
    Summary.completedCount before + (if Result.success out.1 then 1 else 0) ∧
  Summary.failedCount after =
    Summary.failedCount before + (if Result.success out.1 then 0 else 1) ∧
  Summary.pendingCount after = Summary.pendingCount before ∧
  Summary.totalCount after = Summary.totalCount before + 1.
Proof.
  intros Hfresh out Hout. cbn zeta.
  assert (∃ n dst ty, transactions out.2 =
            transactions db ++ [logged env n dst ty amount out.1])
    as (n & dst & ty & E).
  { destruct Hout as [-> | [-> | ->]].
    - destruct (processDeposit_log env A amount db Hfresh) as [_ H]. eauto.
    - destruct (processWithdrawal_log env A amount db Hfresh) as [_ H]. eauto.
    - destruct (processTransfer_log env A B amount db Hfresh) as [_ H]. eauto. }
  cbn [getTransactionSummary Summary.completedCount Summary.failedCount
       Summary.pendingCount Summary.totalCount].
  rewrite !(count_status_logged _ _ _ _ _ _ _ _ _ E).
  rewrite E, length_app. cbn [length].
  destruct (Result.success out.1);
    repeat case_decide; try discriminate; try done; lia.
Qed.

Lemma X23_each_call_counts_once_witness :
  let env := mkEnv "3f0c" 1700000000000 in
  let out := processWithdrawal env "10001" 5001 (seed 0) in
  fresh env (seed 0) ∧
  Summary.failedCount (getTransactionSummary out.2) = 1 ∧
  Summary.completedCount (getTransactionSummary out.2) = 3.
Proof.
  intros env out.
  assert (fresh env (seed 0)) as Hfresh
    by (vm_compute; repeat constructor; by intros [=]).
  split; [exact Hfresh|].
  destruct (X23_each_call_counts_once env "10001" "10002" 5001 (seed 0) Hfresh
              out) as (Hc & Hf & _); [by right; left|].
  cbn zeta in Hc, Hf. rewrite Hc, Hf. by vm_compute.
Defined.
